(** * The "dying ReLU" notebook: forward pass and data simulation

    A shallow embedding of the two pieces of logic in
    [inspect_const_weights.ipynb]:

    - the cell that defines [relu] and [compute_activations], which
      recomputes by hand the activations of the 1-2-1 network, and
    - the cell that simulates the data and splits it into a training and an
      evaluation part.

    Numbers are real numbers: the arithmetic of the notebook is read as exact
    arithmetic, rounding is not modelled.  Arrays are numpy arrays, a shape
    with the entries in row-major order; they live in a store and Python
    variables hold references into it, so that the in-place update done by
    [relu] is visible. *)

From Stdlib Require Import Reals Lra ZArith Lia String.
From stdpp Require Import base option list.

(** ** Arrays *)

Module Numpy.

(** [a.shape] and [a.flat]. *)
Record ndarray := NDArray { shape : list nat; data : list R }.

(** Number of entries of an array of shape [s]. *)
Definition size (s : list nat) : nat := foldr Nat.mul 1%nat s.

Definition item (a : ndarray) (i : nat) : R := nth i (data a) 0%R.

(** A Python float or numpy scalar, seen as an array without axes. *)
Definition scalar (r : R) : ndarray := NDArray [] [r].

(** *** Broadcasting

    Shapes are aligned on their last axis; two axes are compatible when they
    are equal or one of them is [1].  Both functions work on the reversed
    shapes, last axis first. *)
Fixpoint broadcast_rev (s1 s2 : list nat) : option (list nat) :=
  match s1, s2 with
  | [], s | s, [] => Some s
  | d1 :: r1, d2 :: r2 =>
      r ← broadcast_rev r1 r2;
      if (d1 =? d2)%nat then Some (d1 :: r)
      else if (d1 =? 1)%nat then Some (d2 :: r)
      else if (d2 =? 1)%nat then Some (d1 :: r)
      else None
  end.

Definition broadcast_shapes (s1 s2 : list nat) : option (list nat) :=
  reverse <$> broadcast_rev (reverse s1) (reverse s2).

(** Position, in an operand of (reversed) shape [s], of the entry that is used
    at position [i] of the result of (reversed) shape [out]: an axis of
    length [1] is repeated, an axis missing on the left too. *)
Fixpoint bindex (out s : list nat) (i : nat) : nat :=
  match out, s with
  | d :: out', ds :: s' =>
      ((if (ds =? 1)%nat then 0 else i mod d) + ds * bindex out' s' (i / d))%nat
  | _, _ => 0%nat
  end.

Definition broadcast_item (a : ndarray) (out : list nat) (i : nat) : R :=
  item a (bindex (reverse out) (reverse (shape a)) i).

(** Element-wise binary operation with broadcasting; [None] when the shapes
    cannot be broadcast together. *)
Definition elementwise (f : R → R → R) (a b : ndarray) : option ndarray :=
  s ← broadcast_shapes (shape a) (shape b);
  Some (NDArray s
          (map (λ i, f (broadcast_item a s i) (broadcast_item b s i))
               (seq 0 (size s)))).

(** [a + b] *)
Definition add : ndarray → ndarray → option ndarray := elementwise Rplus.

(** *** [numpy.dot] *)

Definition sum_upto (k : nat) (f : nat → R) : R :=
  foldr Rplus 0%R (map f (seq 0 k)).

(** A shape split into its leading axes and its last axis. *)
Definition split_last (s : list nat) : option (list nat * nat) :=
  match reverse s with
  | [] => None
  | k :: r => Some (reverse r, k)
  end.

(** [a.dot(b)]: a product of entries when one side has no axis, an inner
    product over the last axis of [a] and the only axis of [b] when [b] has
    one axis, and otherwise a sum over the last axis of [a] and the
    second-to-last axis of [b].  [None] when the two axes differ in length. *)
Definition dot (a b : ndarray) : option ndarray :=
  match split_last (shape a), split_last (shape b) with
  | None, _ | _, None => elementwise Rmult a b
  | Some (sa, k), Some (sb', n) =>
      match split_last sb' with
      | None =>
          if (k =? n)%nat then
            Some (NDArray sa
                    (map (λ i, sum_upto k (λ t, item a (i * k + t) * item b t)%R)
                         (seq 0 (size sa))))
          else None
      | Some (sb, k') =>
          if (k =? k')%nat then
            Some (NDArray (sa ++ sb ++ [n])
                    (map (λ o,
                       let l := (o mod n)%nat in
                       let j := ((o / n) mod size sb)%nat in
                       let i := ((o / n) / size sb)%nat in
                       sum_upto k (λ t,
                         item a (i * k + t) * item b ((j * k + t) * n + l))%R)
                       (seq 0 (size (sa ++ sb ++ [n])))))
          else None
      end
  end.

(** *** Comparison and masked assignment *)

Definition Rltb (x y : R) : bool := if Rlt_dec x y then true else false.

(** [a < v], the mask of the entries below [v]. *)
Definition less (a : ndarray) (v : R) : list bool :=
  map (λ x, Rltb x v) (data a).

(** The contents of [a] after [a[mask] = v]. *)
Definition mask_assign (a : ndarray) (mask : list bool) (v : R) : ndarray :=
  NDArray (shape a) (zip_with (λ (m : bool) x, if m then v else x) mask (data a)).

(** The entry that [relu] leaves where it finds [v]. *)
Definition clamp (v : R) : R := if Rltb v 0 then 0%R else v.

End Numpy.

Import Numpy.

(** ** The store and the monad of the notebook's code

    [heap] is the store of arrays, a reference is a position in it and
    allocation appends.  A Python value of the cell is a number (a Python float
    or a numpy scalar, both immutable) or a reference to an array. *)

Abbreviation loc := nat (only parsing).
Abbreviation heap := (list ndarray) (only parsing).

Inductive value :=
  | VNum (r : R)
  | VRef (l : loc).

(** The exceptions the cell can raise.  [DanglingRef] is not a Python
    exception: it is the outcome of following a reference that is not in
    the store, which no Python program can hold. *)
Inductive exn :=
  | AssertionError
  | IndexError
  | ValueError
  | TypeError
  | DanglingRef.

(** A run of a cell from a state of type [S] ends with a result or with an
    exception, and with the state it has reached. *)
Inductive outcome (S A : Type) :=
  | Ok (a : A) (s : S)
  | Raise (e : exn) (s : S).
Arguments Ok {S A} a s.
Arguments Raise {S A} e s.

Definition M (S A : Type) : Type := S → outcome S A.

#[export] Instance M_ret {S} : MRet (M S) := λ A a s, Ok a s.

#[export] Instance M_bind {S} : MBind (M S) := λ A B f m s,
  match m s with
  | Ok a s' => f a s'
  | Raise e s' => Raise e s'
  end.

Definition raise {S A} (e : exn) : M S A := λ s, Raise e s.

(** The state a run ends in, whatever its outcome. *)
Definition final_state {S A} (o : outcome S A) : S :=
  match o with Ok _ s | Raise _ s => s end.

(** What a run hands back: the result or the exception, without the state. *)
Definition result {S A} (o : outcome S A) : exn + A :=
  match o with
  | Ok a _ => inr a
  | Raise e _ => inl e
  end.

(** [ensures o Q E]: the outcome [o] satisfies [Q] when it is a result and [E]
    when it is an exception. *)
Definition ensures {S A} (o : outcome S A)
    (Q : A → S → Prop) (E : exn → S → Prop) : Prop :=
  match o with
  | Ok a s => Q a s
  | Raise e s => E e s
  end.

(** A value that is not a reference into the store [h0]. *)
Definition fresh (h0 : heap) (v : value) : Prop :=
  match v with
  | VNum _ => True
  | VRef l => length h0 ≤ l
  end.

(** An exception other than the failed assertion, in a store that extends
    [h0]. *)
Definition benign (h0 : heap) (e : exn) (h : heap) : Prop :=
  e ≠ AssertionError ∧ h0 `prefix_of` h.

(** [assert b] *)
Definition assert {S} (b : bool) : M S unit :=
  if b then mret tt else raise AssertionError.

Definition alloc (a : ndarray) : M heap loc := λ h, Ok (length h) (h ++ [a]).

Definition read (l : loc) : M heap ndarray := λ h,
  match h !! l with
  | Some a => Ok a h
  | None => Raise DanglingRef h
  end.

Definition write (l : loc) (a : ndarray) : M heap unit := λ h,
  match h !! l with
  | Some _ => Ok tt (<[l := a]> h)
  | None => Raise DanglingRef h
  end.

(** [weights[i]] on a Python list of arrays, for [i >= 0]. *)
Definition getitem (weights : list loc) (i : nat) : M heap value :=
  match weights !! i with
  | Some l => mret (VRef l)
  | None => raise IndexError
  end.

(** The array a value stands for in an arithmetic operation. *)
Definition load (v : value) : M heap ndarray :=
  match v with
  | VNum r => mret (scalar r)
  | VRef l => read l
  end.

(** The value of an arithmetic result: numpy hands back a scalar instead of
    an array without axes, and a new array otherwise. *)
Definition box (a : ndarray) : M heap value :=
  match shape a with
  | [] => mret (VNum (item a 0))
  | _ :: _ => l ← alloc a; mret (VRef l)
  end.

(** An operation of numpy on two values; mismatched shapes raise
    [ValueError]. *)
Definition binop (op : ndarray → ndarray → option ndarray) (u v : value)
  : M heap value :=
  a ← load u;
  b ← load v;
  match op a b with
  | Some c => box c
  | None => raise ValueError
  end.

(** [u.dot(v)] and [u + v] *)
Definition np_dot : value → value → M heap value := binop dot.
Definition np_add : value → value → M heap value := binop add.

(** ** The cell

<<
def relu(x):
    negatives = (x < 0)
    x[negatives] = 0.0
    return x
>>
    A number does not support item assignment; an array is updated in
    place and the same reference is returned. *)
Definition relu (x : value) : M heap value :=
  match x with
  | VNum r =>
      let negatives := Rltb r 0 in
      raise TypeError
  | VRef l =>
      a ← read l;
      let negatives := less a 0 in
      write l (mask_assign a negatives 0);;
      mret x
  end.

(** <<
def compute_activations(x, weights, activations):
    assert activations in ['relu', 'linear']
    W1 = weights[0]
    b1 = weights[1]
    W2 = weights[2]
    b2 = weights[3]
    hidden = W1.dot(x) + b1
    if activations == 'relu':
        hidden = relu(hidden)
        final = relu(hidden.dot(W2) + b2)
    else:
        final = hidden.dot(W2) + b2
    return hidden, final
>>
    [x] is a Python float and [weights] a Python list of arrays. *)
Definition compute_activations (x : R) (weights : list loc) (activations : string)
  : M heap (value * value) :=
  assert (existsb (String.eqb activations) ["relu"; "linear"]%string);;
  W1 ← getitem weights 0;
  b1 ← getitem weights 1;
  W2 ← getitem weights 2;
  b2 ← getitem weights 3;
  t ← np_dot W1 (VNum x);
  hidden ← np_add t b1;
  if String.eqb activations "relu"%string then
    hidden ← relu hidden;
    t ← np_dot hidden W2;
    t ← np_add t b2;
    final ← relu t;
    mret (hidden, final)
  else
    t ← np_dot hidden W2;
    final ← np_add t b2;
    mret (hidden, final).

(** ** The network of the notebook

    The weights of the 1-2-1 network are two vectors of the plane for the
    kernels, a vector of the plane for the first bias and a number for the
    second.  [model.weights] stores them in the layout [Keras]: the kernel
    [W1] of the first layer is an array of shape [(1, 2)], its bias [b1] has
    shape [(2,)], the kernel [W2] of the second layer has shape [(2, 1)] and
    its bias [b2] has shape [(1,)]; the hidden layer then has shape [(1, 2)]
    and the final one [(1, 1)].  The cell also takes the layout [Flat], with
    both kernels of shape [(2,)]; the hidden layer then has shape [(2,)] and
    the final one [(1,)]. *)

Definition vec2 : Type := R * R.

Record bundle := Bundle { W1 : vec2; b1 : vec2; W2 : vec2; b2 : R }.

Definition row (v : vec2) : ndarray := NDArray [1; 2]%nat [v.1; v.2].
Definition flat (v : vec2) : ndarray := NDArray [2]%nat [v.1; v.2].
Definition column (v : vec2) : ndarray := NDArray [2; 1]%nat [v.1; v.2].
Definition single (r : R) : ndarray := NDArray [1]%nat [r].
Definition cell (r : R) : ndarray := NDArray [1; 1]%nat [r].

Inductive layout := Keras | Flat.

(** The array of [W1], and of the hidden layer. *)
Definition hidden_layer (ly : layout) (v : vec2) : ndarray :=
  match ly with
  | Keras => row v
  | Flat => flat v
  end.

(** The array of [W2]. *)
Definition second_kernel (ly : layout) (v : vec2) : ndarray :=
  match ly with
  | Keras => column v
  | Flat => flat v
  end.

(** The array of the final layer. *)
Definition final_layer (ly : layout) (r : R) : ndarray :=
  match ly with
  | Keras => cell r
  | Flat => single r
  end.

(** The array behind [weights[i]]. *)
Definition deref (h : heap) (weights : list loc) (i : nat) : option ndarray :=
  l ← weights !! i; h !! l.

(** The store holds the four arrays of the bundle [w], in the layout [ly],
    behind [weights]. *)
Definition holds_bundle (ly : layout) (h : heap) (weights : list loc)
    (w : bundle) : Prop :=
  deref h weights 0 = Some (hidden_layer ly (W1 w)) ∧
  deref h weights 1 = Some (flat (b1 w)) ∧
  deref h weights 2 = Some (second_kernel ly (W2 w)) ∧
  deref h weights 3 = Some (single (b2 w)).

(** The array a returned value denotes in a store. *)
Definition fetch (h : heap) (v : value) : option ndarray :=
  match v with
  | VNum r => Some (scalar r)
  | VRef l => h !! l
  end.

(** The run returned the pair of arrays [(hidden, final)]. *)
Definition returns (o : outcome heap (value * value)) (hidden final : ndarray) : Prop :=
  match o with
  | Ok (vh, vf) h => fetch h vh = Some hidden ∧ fetch h vf = Some final
  | Raise _ _ => False
  end.

(** The run raised [e]. *)
Definition raises {S A} (o : outcome S A) (e : exn) : Prop :=
  match o with
  | Ok _ _ => False
  | Raise e' _ => e' = e
  end.

(** *** The forward pass as the specification words it

    The two activation policies, and the five steps: the affine map, the
    clamp of the hidden vector, the inner product with [W2] plus [b2], the
    clamp of the result, the pair. *)

Inductive policy := RectifiedLinear | Linear.

Definition policy_name (p : policy) : string :=
  match p with
  | RectifiedLinear => "relu"%string
  | Linear => "linear"%string
  end.

Local Open Scope R_scope.

Definition dot2 (u v : vec2) : R := u.1 * v.1 + u.2 * v.2.

Definition affine (x : R) (w b : vec2) : vec2 := (w.1 * x + b.1, w.2 * x + b.2).

Definition activation (p : policy) (v : R) : R :=
  match p with
  | RectifiedLinear => Rmax v 0
  | Linear => v
  end.

Definition spec_hidden (p : policy) (x : R) (w : bundle) : vec2 :=
  let hidden := affine x (W1 w) (b1 w) in
  (activation p hidden.1, activation p hidden.2).

Definition spec_final (p : policy) (x : R) (w : bundle) : R :=
  activation p (dot2 (spec_hidden p x w) (W2 w) + b2 w).

(** Euclidean norm and angle of vectors of the plane, for the closed form of
    the linear network. *)
Definition norm (v : vec2) : R := sqrt (dot2 v v).

Definition angle_between (u v : vec2) : R := acos (dot2 u v / (norm u * norm v)).

Local Close Scope R_scope.

(** The arrays a run of [compute_activations] appends to the store: the
    product [W1.dot(x)], the hidden layer, [hidden.dot(W2)] unless it is a
    number, and the final layer. *)
Definition trace (ly : layout) (p : policy) (x : R) (w : bundle) : list ndarray :=
  match ly with
  | Keras =>
      [ row ((W1 w).1 * x, (W1 w).2 * x)%R;
        row (spec_hidden p x w);
        cell (dot2 (spec_hidden p x w) (W2 w));
        cell (spec_final p x w) ]
  | Flat =>
      [ flat ((W1 w).1 * x, (W1 w).2 * x)%R;
        flat (spec_hidden p x w);
        single (spec_final p x w) ]
  end.

(** The bundle [w] as the only content of a store, and the Python list that
    refers to its four arrays. *)
Definition store_of (ly : layout) (w : bundle) : heap :=
  [hidden_layer ly (W1 w); flat (b1 w); second_kernel ly (W2 w); single (b2 w)].

Definition refs : list loc := [0; 1; 2; 3]%nat.

(** ** The cell as a function of the contents of its arguments *)

#[export] Instance exn_ret : MRet (sum exn) := λ A a, inr a.

#[export] Instance exn_bind : MBind (sum exn) := λ A B f m,
  match m with
  | inl e => inl e
  | inr a => f a
  end.

(** [args[i]] on the list of the arrays themselves. *)
Definition argument (args : list ndarray) (i : nat) : exn + ndarray :=
  match args !! i with
  | Some a => inr a
  | None => inl IndexError
  end.

Definition lift (o : option ndarray) : exn + ndarray :=
  match o with
  | Some c => inr c
  | None => inl ValueError
  end.

(** What [relu] leaves in the array it is given; an arithmetic result
    without axes is a number, which [relu] cannot update. *)
Definition clamped (a : ndarray) : exn + ndarray :=
  match shape a with
  | [] => inl TypeError
  | _ :: _ => inr (mask_assign a (less a 0) 0)
  end.

(** [compute_activations] without the store: from the arrays behind
    [weights] to the arrays behind the pair it returns. *)
Definition forward (x : R) (args : list ndarray) (activations : string)
  : exn + (ndarray * ndarray) :=
  if existsb (String.eqb activations) ["relu"; "linear"]%string then
    W1 ← argument args 0;
    b1 ← argument args 1;
    W2 ← argument args 2;
    b2 ← argument args 3;
    t ← lift (dot W1 (scalar x));
    hidden ← lift (add t b1);
    if String.eqb activations "relu"%string then
      hidden ← clamped hidden;
      t ← lift (dot hidden W2);
      t ← lift (add t b2);
      final ← clamped t;
      mret (hidden, final)
    else
      t ← lift (dot hidden W2);
      final ← lift (add t b2);
      mret (hidden, final)
  else inl AssertionError.

(** The store [h] holds the arrays [args] behind the references [weights]. *)
Definition denotes (h : heap) (weights : list loc) (args : list ndarray) : Prop :=
  Forall2 (λ l a, h !! l = Some a) weights args.

(** A run in the store and an evaluation of [forward] end alike. *)
Definition agrees (o : outcome heap (value * value))
    (r : exn + (ndarray * ndarray)) : Prop :=
  match o, r with
  | Ok (vh, vf) s, inr (a, b) => fetch s vh = Some a ∧ fetch s vf = Some b
  | Raise e _, inl e' => e = e'
  | _, _ => False
  end.

(** The value [v] is what [box] makes of the array [c] in a store of which
    [s] is the part allocated before. *)
Definition boxed (s : heap) (v : value) (c : ndarray) : Prop :=
  match v with
  | VNum r => c = scalar r
  | VRef l => l = length s ∧ shape c ≠ []
  end.

(** An array without axes that [op] has computed holds one number. *)
Definition numpy_op (op : ndarray → ndarray → option ndarray) : Prop :=
  ∀ a b c, op a b = Some c → shape c = [] → c = scalar (item c 0).

(** Two runs end alike: with the same exception, or with pairs of values that
    stand for equal arrays, each in its own store. *)
Definition alike (o o' : outcome heap (value * value)) : Prop :=
  match o, o' with
  | Ok (vh, vf) s, Ok (vh', vf') s' =>
      (∃ a, fetch s vh = Some a ∧ fetch s' vh' = Some a) ∧
      (∃ b, fetch s vf = Some b ∧ fetch s' vf' = Some b)
  | Raise e _, Raise e' _ => e = e'
  | _, _ => False
  end.

(** ** The data-simulation cell

    The cell draws from numpy's pseudo-random generators.  [Generator] is what
    it uses of them: the state a seed stands for, one uniform draw, and the
    permutation of [range(n)] a state produces. *)

Class Generator (rng : Type) := {
  seed_state : Z → rng;
  random_sample : rng → R * rng;
  permutation : rng → nat → list nat
}.

(** The contract of [permutation]. *)
Definition permutes `{Generator rng} : Prop :=
  ∀ (g : rng) (n : nat), permutation g n ≡ₚ seq 0 n.

(** The four arrays that [train_test_split] hands back. *)
Record split := Split {
  x_train : ndarray;
  x_test : ndarray;
  y_train : ndarray;
  y_test : ndarray
}.

Definition n_features : nat := 1.

(** [a[idx] *= c]: the entries of row [idx] are scaled in place. *)
Definition scale_row (a : ndarray) (idx : nat) (c : R) : ndarray :=
  let width := size (tail (shape a)) in
  NDArray (shape a)
    (take (idx * width) (data a)
       ++ map (λ v, (v * c)%R) (take width (drop (idx * width) (data a)))
       ++ drop (idx * width + width) (data a)).

(** The inputs after the loop
<<
for idx in range(n):
    x[idx] *= y[idx]
>> *)
Definition scaled (x y : ndarray) (n : nat) : ndarray :=
  foldl (λ x idx, scale_row x idx (item y idx)) x (seq 0 n).

(** [a[ind]] for a list of row numbers. *)
Definition take_rows (a : ndarray) (ind : list nat) : ndarray :=
  let width := size (tail (shape a)) in
  NDArray (length ind :: tail (shape a))
    (mjoin (map (λ i, take width (drop (i * width) (data a))) ind)).

Section DataSimulation.
Context `{Generator rng}.

(** A seed is an integer below [2**32]. *)
Definition valid_seed (seed : Z) : bool :=
  ((0 <=? seed) && (seed <? 2 ^ 32))%Z.

(** [np.ones((n, c))] *)
Definition np_ones (n : Z) (c : nat) : M rng ndarray :=
  if (n <? 0)%Z then raise ValueError
  else mret (NDArray [Z.to_nat n; c] (replicate (Z.to_nat n * c) 1%R)).

(** [np.random.seed(seed)] resets the global generator. *)
Definition np_random_seed (seed : Z) : M rng unit := λ g,
  if valid_seed seed then Ok tt (seed_state seed) else Raise ValueError g.

Fixpoint draws (n : nat) (g : rng) : list R * rng :=
  match n with
  | O => ([], g)
  | S n' =>
      let (v, g') := random_sample g in
      let (vs, g'') := draws n' g' in
      (v :: vs, g'')
  end.

(** [np.random.uniform(size=n)] draws from the global generator. *)
Definition np_random_uniform (n : Z) : M rng ndarray := λ g,
  if (n <? 0)%Z then Raise ValueError g
  else let (vs, g') := draws (Z.to_nat n) g in
       Ok (NDArray [Z.to_nat n] vs) g'.

(** [train_test_split(x, y, test_size=0.2, random_state=seed)], as
    scikit-learn computes it (version 0.21 and later): the two arrays must
    have as many rows; [ceil(0.2 * n)] rows go to the evaluation part and
    the others to the training part, which must not be empty; the rows are
    those of a permutation drawn from a generator of its own, seeded with
    [random_state], the first [n_test] for the evaluation part and the
    following ones for the training part. *)
Definition train_test_split (x y : ndarray) (seed : Z) : M rng split :=
  let n_samples := hd 0%nat (shape x) in
  if negb (n_samples =? hd 0 (shape y))%nat then raise ValueError else
  let n_test := ((n_samples + 4) / 5)%nat in
  let n_train := (n_samples - n_test)%nat in
  if (n_train =? 0)%nat then raise ValueError else
  if negb (valid_seed seed) then raise ValueError else
  let indices := permutation (seed_state seed) n_samples in
  let ind_test := take n_test indices in
  let ind_train := take n_train (drop n_test indices) in
  mret (Split (take_rows x ind_train) (take_rows x ind_test)
              (take_rows y ind_train) (take_rows y ind_test)).

(** <<
n_samples = 2000
n_features = 1
x = np.ones((n_samples, n_features))
np.random.seed(23)
y = np.random.uniform(size=n_samples)
for idx in range(n_samples):
    x[idx] *= y[idx]
x_train, x_test, y_train, y_test = train_test_split(x, y, test_size=0.2, random_state=23)
>>
    with the sample count and the seed, [2000] and [23] in the notebook,
    as parameters.  The state is numpy's global generator. *)
Definition data_simulation (n_samples seed : Z) : M rng split :=
  x ← np_ones n_samples n_features;
  np_random_seed seed;;
  y ← np_random_uniform n_samples;
  let x := scaled x y (Z.to_nat n_samples) in
  train_test_split x y seed.

End DataSimulation.

(** A small generator to run the cell on: a linear congruential state, and
    the rotation by the state as permutation. *)
Definition toy_sample (g : Z) : R * Z :=
  ((IZR (g mod 1024) / 1024)%R, ((g * 1103515245 + 12345) mod 2 ^ 31)%Z).

Definition toy_permutation (g : Z) (n : nat) : list nat :=
  rotate (Z.to_nat g) (seq 0 n).

#[export] Instance toy_generator : Generator Z := {|
  seed_state seed := seed;
  random_sample := toy_sample;
  permutation := toy_permutation
|}.

(** ** The cell that reports the activations

    [a[0]] on a value: the first entry along the first axis.  A number has
    no entry to take, nor has an array without axes or with an empty first
    axis. *)
Definition first_entry (v : value) : M heap ndarray :=
  match v with
  | VNum _ => raise IndexError
  | VRef l =>
      a ← read l;
      match shape a with
      | [] => raise IndexError
      | d :: rest =>
          if (d =? 0)%nat then raise IndexError
          else mret (NDArray rest (take (size rest) (data a)))
      end
  end.

(** <<
relu_hidden, relu_final = compute_activations(0.5, relu_init, 'relu')
linear_hidden, linear_final = compute_activations(0.5, linear_init, 'linear')

print('ReLU model:')
print('  hidden layer activations:', relu_hidden[0])
print('  final layer activations:', relu_final[0])
print('Linear model:')
print('  hidden layer activations:', linear_hidden[0])
print('  final layer activations:', linear_final[0])
>>
    with the input, [0.5] in the notebook, as a parameter; the result is the
    four arrays that are printed, in that order. *)
Definition report (x : R) (relu_init linear_init : list loc)
  : M heap (ndarray * ndarray * ndarray * ndarray) :=
  '(relu_hidden, relu_final) ← compute_activations x relu_init "relu";
  '(linear_hidden, linear_final) ← compute_activations x linear_init "linear";
  a ← first_entry relu_hidden;
  b ← first_entry relu_final;
  c ← first_entry linear_hidden;
  d ← first_entry linear_final;
  mret (a, b, c, d).

(** No entry of the array is negative. *)
Definition nonnegative (a : ndarray) : Prop := Forall (λ v, (0 <= v)%R) (data a).

(** * Properties *)

(** ** Running the monad *)

Lemma bind_Ok {S A B} (m : M S A) (f : A → M S B) s a s' :
  m s = Ok a s' → (m ≫= f) s = f a s'.
Proof. intros E. unfold mbind, M_bind. by rewrite E. Qed.

Lemma bind_Raise {S A B} (m : M S A) (f : A → M S B) s e s' :
  m s = Raise e s' → (m ≫= f) s = Raise e s'.
Proof. intros E. unfold mbind, M_bind. by rewrite E. Qed.

Lemma getitem_Ok weights i l h :
  weights !! i = Some l → getitem weights i h = Ok (VRef l) h.
Proof. intros E. unfold getitem. by rewrite E. Qed.

Lemma load_fetch v a h : fetch h v = Some a → load v h = Ok a h.
Proof.
  destruct v as [r|l]; simpl.
  - by intros [= <-].
  - intros E. unfold read. by rewrite E.
Qed.

Lemma box_array c h :
  shape c ≠ [] → box c h = Ok (VRef (length h)) (h ++ [c]).
Proof. unfold box. by destruct (shape c). Qed.

Lemma binop_array op u v a b c h :
  fetch h u = Some a → fetch h v = Some b → op a b = Some c → shape c ≠ [] →
  binop op u v h = Ok (VRef (length h)) (h ++ [c]).
Proof.
  intros Eu Ev Ec Hc. unfold binop.
  rewrite (bind_Ok _ _ _ _ _ (load_fetch _ _ _ Eu)).
  rewrite (bind_Ok _ _ _ _ _ (load_fetch _ _ _ Ev)).
  rewrite Ec. by apply box_array.
Qed.

Lemma relu_array l a h :
  h !! l = Some a →
  relu (VRef l) h = Ok (VRef l) (<[l := mask_assign a (less a 0) 0]> h).
Proof.
  intros E. unfold relu, read, write, mbind, M_bind.
  rewrite E. simpl. by rewrite E.
Qed.

Lemma fetch_app h k v a : fetch h v = Some a → fetch (h ++ k) v = Some a.
Proof. destruct v; simpl; [done | apply lookup_app_l_Some]. Qed.

Lemma fetch_fresh h c k : fetch (h ++ c :: k) (VRef (length h)) = Some c.
Proof. simpl. by apply list_lookup_middle. Qed.

Lemma insert_fresh (h : heap) c c' k :
  <[length h := c']> (h ++ c :: k) = h ++ c' :: k.
Proof. by rewrite insert_app_r_alt, Nat.sub_diag. Qed.

(** ** The clamp of [relu] *)

Lemma clamp_Rmax v : clamp v = Rmax v 0.
Proof.
  unfold clamp, Rltb, Rmax.
  destruct (Rlt_dec v 0), (Rle_dec v 0); lra.
Qed.

Lemma mask_assign_row v :
  mask_assign (row v) (less (row v) 0) 0 = row (clamp v.1, clamp v.2).
Proof. reflexivity. Qed.

Lemma mask_assign_cell r :
  mask_assign (cell r) (less (cell r) 0) 0 = cell (clamp r).
Proof. reflexivity. Qed.

(** ** The arithmetic of numpy on the shapes of the network *)

Lemma dot_row_scalar v x :
  dot (row v) (scalar x) = Some (row ((v.1 * x)%R, (v.2 * x)%R)).
Proof. reflexivity. Qed.

Lemma add_row_flat u v :
  add (row u) (flat v) = Some (row ((u.1 + v.1)%R, (u.2 + v.2)%R)).
Proof. reflexivity. Qed.

Lemma dot_row_column u v :
  dot (row u) (column v) = Some (cell (u.1 * v.1 + (u.2 * v.2 + 0))%R).
Proof. reflexivity. Qed.

Lemma add_cell_single r s :
  add (cell r) (single s) = Some (cell (r + s)%R).
Proof. reflexivity. Qed.

(** ** The forward pass on the weights of the network *)

Lemma mask_assign_flat v :
  mask_assign (flat v) (less (flat v) 0) 0 = flat (clamp v.1, clamp v.2).
Proof. reflexivity. Qed.

Lemma mask_assign_single r :
  mask_assign (single r) (less (single r) 0) 0 = single (clamp r).
Proof. reflexivity. Qed.

Lemma dot_flat_scalar v x :
  dot (flat v) (scalar x) = Some (flat ((v.1 * x)%R, (v.2 * x)%R)).
Proof. reflexivity. Qed.

Lemma add_flat_flat u v :
  add (flat u) (flat v) = Some (flat ((u.1 + v.1)%R, (u.2 + v.2)%R)).
Proof. reflexivity. Qed.

(** The inner product of two vectors is a number. *)
Lemma dot_flat_flat u v :
  dot (flat u) (flat v) = Some (scalar (u.1 * v.1 + (u.2 * v.2 + 0))%R).
Proof. reflexivity. Qed.

Lemma add_scalar_single r s :
  add (scalar r) (single s) = Some (single (r + s)%R).
Proof. reflexivity. Qed.

Lemma binop_number op u v a b r h :
  fetch h u = Some a → fetch h v = Some b → op a b = Some (scalar r) →
  binop op u v h = Ok (VNum r) h.
Proof.
  intros Eu Ev Ec. unfold binop.
  rewrite (bind_Ok _ _ _ _ _ (load_fetch _ _ _ Eu)).
  rewrite (bind_Ok _ _ _ _ _ (load_fetch _ _ _ Ev)).
  by rewrite Ec.
Qed.

Lemma holds_bundle_inv ly h weights w :
  holds_bundle ly h weights w →
  ∃ l1 l2 l3 l4,
    (weights !! 0%nat = Some l1 ∧ weights !! 1%nat = Some l2 ∧
     weights !! 2%nat = Some l3 ∧ weights !! 3%nat = Some l4) ∧
    h !! l1 = Some (hidden_layer ly (W1 w)) ∧ h !! l2 = Some (flat (b1 w)) ∧
    h !! l3 = Some (second_kernel ly (W2 w)) ∧ h !! l4 = Some (single (b2 w)).
Proof.
  unfold holds_bundle, deref. intros (E1 & E2 & E3 & E4).
  destruct (weights !! 0%nat) as [l1|]; [|done].
  destruct (weights !! 1%nat) as [l2|]; [|done].
  destruct (weights !! 2%nat) as [l3|]; [|done].
  destruct (weights !! 3%nat) as [l4|]; [|done].
  by exists l1, l2, l3, l4.
Qed.

Ltac solve_fetch :=
  simpl;
  first [ reflexivity
        | eassumption
        | by apply list_lookup_middle
        | apply lookup_app_l_Some; solve_fetch ].

Ltac run_getitem := erewrite bind_Ok; [| apply getitem_Ok; eassumption ].

Ltac run_binop lem :=
  erewrite bind_Ok;
  [| eapply binop_array; [solve_fetch | solve_fetch | apply lem | done ] ].

Ltac run_number lem :=
  erewrite bind_Ok;
  [| eapply binop_number; [solve_fetch | solve_fetch | apply lem ] ].

Ltac run_relu :=
  erewrite bind_Ok; [| apply relu_array; solve_fetch ];
  rewrite insert_fresh.

Ltac finish_run :=
  unfold mret, M_ret; rewrite !length_app, <- !app_assoc; simpl;
  rewrite ?clamp_Rmax;
  unfold trace, spec_final, spec_hidden, affine, activation, dot2, cell, single;
  simpl;
  f_equal; [ f_equal; f_equal; lia | repeat f_equal; lra ].

(** The run on the weights as [model.weights] stores them: four arrays are
    allocated, the second is the hidden layer and the fourth the final
    one. *)
Lemma compute_activations_keras p x weights w h :
  holds_bundle Keras h weights w →
  compute_activations x weights (policy_name p) h =
    Ok (VRef (length h + 1), VRef (length h + 3)) (h ++ trace Keras p x w).
Proof.
  intros (l1 & l2 & l3 & l4 & (G1 & G2 & G3 & G4) & H1 & H2 & H3 & H4)%holds_bundle_inv.
  simpl in H1, H3. unfold compute_activations.
  destruct p; simpl policy_name; simpl existsb; simpl String.eqb; cbv iota.
  - erewrite bind_Ok by reflexivity.
    do 4 run_getitem.
    run_binop dot_row_scalar. run_binop add_row_flat.
    run_relu. rewrite mask_assign_row.
    run_binop dot_row_column. run_binop add_cell_single.
    run_relu. rewrite mask_assign_cell.
    finish_run.
  - erewrite bind_Ok by reflexivity.
    do 4 run_getitem.
    run_binop dot_row_scalar. run_binop add_row_flat.
    run_binop dot_row_column. run_binop add_cell_single.
    finish_run.
Qed.

(** The run on flat kernels: [hidden.dot(W2)] is a number, so three arrays
    are allocated, the second is the hidden layer and the third the final
    one. *)
Lemma compute_activations_flat p x weights w h :
  holds_bundle Flat h weights w →
  compute_activations x weights (policy_name p) h =
    Ok (VRef (length h + 1), VRef (length h + 2)) (h ++ trace Flat p x w).
Proof.
  intros (l1 & l2 & l3 & l4 & (G1 & G2 & G3 & G4) & H1 & H2 & H3 & H4)%holds_bundle_inv.
  simpl in H1, H3. unfold compute_activations.
  destruct p; simpl policy_name; simpl existsb; simpl String.eqb; cbv iota.
  - erewrite bind_Ok by reflexivity.
    do 4 run_getitem.
    run_binop dot_flat_scalar. run_binop add_flat_flat.
    run_relu. rewrite mask_assign_flat.
    run_number dot_flat_flat. run_binop add_scalar_single.
    run_relu. rewrite mask_assign_single.
    finish_run.
  - erewrite bind_Ok by reflexivity.
    do 4 run_getitem.
    run_binop dot_flat_scalar. run_binop add_flat_flat.
    run_number dot_flat_flat. run_binop add_scalar_single.
    finish_run.
Qed.

Lemma holds_bundle_store_of ly w : holds_bundle ly (store_of ly w) refs w.
Proof. by repeat split. Qed.

Lemma holds_bundle_app ly h k weights w :
  holds_bundle ly h weights w → holds_bundle ly (h ++ k) weights w.
Proof.
  intros (l1 & l2 & l3 & l4 & (G1 & G2 & G3 & G4) & H1 & H2 & H3 & H4)%holds_bundle_inv.
  unfold holds_bundle, deref. rewrite G1, G2, G3, G4. simpl.
  rewrite (lookup_app_l_Some _ k _ _ H1), (lookup_app_l_Some _ k _ _ H2).
  by rewrite (lookup_app_l_Some _ k _ _ H3), (lookup_app_l_Some _ k _ _ H4).
Qed.

(** In either layout the run returns the hidden and the final layer of the
    specification. *)
Lemma returns_bundle ly p x weights w h :
  holds_bundle ly h weights w →
  returns (compute_activations x weights (policy_name p) h)
          (hidden_layer ly (spec_hidden p x w))
          (final_layer ly (spec_final p x w)).
Proof.
  intros Hw. destruct ly.
  - rewrite (compute_activations_keras _ _ _ _ _ Hw).
    unfold returns, fetch, trace. split.
    + rewrite lookup_app_r by lia.
      by replace (length h + 1 - length h)%nat with 1%nat by lia.
    + rewrite lookup_app_r by lia.
      by replace (length h + 3 - length h)%nat with 3%nat by lia.
  - rewrite (compute_activations_flat _ _ _ _ _ Hw).
    unfold returns, fetch, trace. split.
    + rewrite lookup_app_r by lia.
      by replace (length h + 1 - length h)%nat with 1%nat by lia.
    + rewrite lookup_app_r by lia.
      by replace (length h + 2 - length h)%nat with 2%nat by lia.
Qed.

Lemma returns_inj o hidden final hidden' final' :
  returns o hidden final → returns o hidden' final' →
  hidden = hidden' ∧ final = final'.
Proof.
  destruct o as [[vh vf] h|]; simpl; [|done].
  intros [-> ->] [[= ->] [= ->]]. done.
Qed.

(** ** The forward pass against its specification *)

Local Open Scope R_scope.

(** C2.  On the weights of a 1-2-1 network, in either layout, and under
    either policy, [compute_activations] returns the pair of the
    specification: the hidden
    vector [W1 * x + b1], clamped at zero exactly under the rectified-linear
    policy, and the output [dot(hidden, W2) + b2] computed from that returned
    hidden vector, clamped at zero exactly under the rectified-linear
    policy. *)
Theorem forward_pass_steps (ly : layout) (p : policy) (x : R) weights
    (w : bundle) h :
  holds_bundle ly h weights w →
  let pre := affine x (W1 w) (b1 w) in
  let hidden :=
    match p with
    | RectifiedLinear => (Rmax pre.1 0, Rmax pre.2 0)
    | Linear => pre
    end in
  let out := dot2 hidden (W2 w) + b2 w in
  let final :=
    match p with
    | RectifiedLinear => Rmax out 0
    | Linear => out
    end in
  returns (compute_activations x weights (policy_name p) h)
          (hidden_layer ly hidden) (final_layer ly final).
Proof.
  intros Hw. pose proof (returns_bundle ly p x _ _ _ Hw) as Hr.
  by destruct p, w as [[] [] [] ?].
Qed.

Lemma forward_pass_steps_witness :
  let w := Bundle (-1, 2) (0, 0) (1, 1) 0 in
  holds_bundle Keras (store_of Keras w) refs w ∧
  returns (compute_activations 1 refs "relu" (store_of Keras w))
          (row (Rmax (-1 * 1 + 0) 0, Rmax (2 * 1 + 0) 0))
          (cell (Rmax (Rmax (-1 * 1 + 0) 0 * 1 + Rmax (2 * 1 + 0) 0 * 1 + 0) 0)).
Proof.
  split.
  - apply (holds_bundle_store_of Keras).
  - apply (forward_pass_steps Keras RectifiedLinear 1 refs
             (Bundle (-1, 2) (0, 0) (1, 1) 0)).
    apply (holds_bundle_store_of Keras).
Defined.

Lemma returns_values ly p x weights w h (hidden : vec2) (final : R) :
  holds_bundle ly h weights w →
  spec_hidden p x w = hidden → spec_final p x w = final →
  returns (compute_activations x weights (policy_name p) h)
          (hidden_layer ly hidden) (final_layer ly final).
Proof. intros Hw <- <-. by apply returns_bundle. Qed.

Lemma Rmax_0_neg v : v <= 0 → Rmax v 0 = 0.
Proof. intros. by apply Rmax_right. Qed.

Lemma Rmax_0_pos v : 0 <= v → Rmax v 0 = v.
Proof. intros. by apply Rmax_left. Qed.

Ltac eval_Rmax :=
  repeat match goal with
    | |- context [Rmax ?v 0] =>
        first [ rewrite (Rmax_0_neg v) by lra | rewrite (Rmax_0_pos v) by lra ]
    end.

Ltac unfold_spec :=
  unfold spec_final, spec_hidden, affine, activation, dot2; simpl.

(** C1, as amended.  With [W1] negative in both components, [x] positive and
    no positive entry in the biases [b1] and [b2] (they are zero in the
    notebook), the rectified-linear pass returns a hidden vector of two
    zeros and the output zero. *)
Theorem relu_saturation_zero (ly : layout) (x : R) weights (w : bundle) h :
  holds_bundle ly h weights w →
  (W1 w).1 < 0 → (W1 w).2 < 0 → 0 < x →
  (b1 w).1 <= 0 → (b1 w).2 <= 0 → b2 w <= 0 →
  returns (compute_activations x weights "relu" h)
          (hidden_layer ly (0, 0)) (final_layer ly 0).
Proof.
  intros Hw H1 H2 Hx Hb1 Hb2 Hb.
  assert ((W1 w).1 * x + (b1 w).1 <= 0) by nra.
  assert ((W1 w).2 * x + (b1 w).2 <= 0) by nra.
  apply (returns_values ly RectifiedLinear x weights w); [done | |]; unfold_spec.
  - by rewrite !Rmax_0_neg.
  - rewrite !(Rmax_0_neg (_ * x + _)) by done. apply Rmax_0_neg. lra.
Qed.

Lemma relu_saturation_zero_witness :
  let w := Bundle (-1, -2) (0, 0) (3, 4) 0 in
  returns (compute_activations 1 refs "relu" (store_of Keras w)) (row (0, 0)) (cell 0).
Proof.
  apply (relu_saturation_zero Keras 1 refs (Bundle (-1, -2) (0, 0) (3, 4) 0));
    [ apply (holds_bundle_store_of Keras) | simpl; lra .. ].
Defined.

(** C1 as stated fails: a positive bias keeps the hidden units alive although
    [W1] is negative and [x] positive. *)
Lemma relu_saturation_zero_counterexample :
  let w := Bundle (-1, -1) (2, 2) (1, 1) 0 in
  let run := compute_activations 1 refs "relu" (store_of Keras w) in
  ((W1 w).1 < 0 ∧ (W1 w).2 < 0 ∧ 0 < 1) ∧
  returns run (row (1, 1)) (cell 2) ∧
  ¬ returns run (row (0, 0)) (cell 0).
Proof.
  intros w run.
  assert (returns run (row (1, 1)) (cell 2)) as Hrun.
  { apply (returns_values Keras RectifiedLinear 1 refs w);
      [ apply (holds_bundle_store_of Keras) | |]; unfold_spec.
    - eval_Rmax. f_equal; lra.
    - eval_Rmax. lra. }
  split; [simpl; lra|]. split; [done|].
  intros Hzero. destruct (returns_inj _ _ _ _ _ Hrun Hzero) as [_ [=]]. lra.
Qed.

(** C5, as amended.  At [x = 0] the linear pass returns [hidden = b1] and
    [final = dot(b1, W2) + b2]; the rectified-linear pass does so when no
    clamp applies, that is when [b1] has no negative entry and
    [dot(b1, W2) + b2] is not negative. *)
Theorem zero_input_boundary (ly : layout) (p : policy) weights (w : bundle) h :
  holds_bundle ly h weights w →
  p = Linear ∨ (0 <= (b1 w).1 ∧ 0 <= (b1 w).2 ∧ 0 <= dot2 (b1 w) (W2 w) + b2 w) →
  returns (compute_activations 0 weights (policy_name p) h)
          (hidden_layer ly (b1 w)) (final_layer ly (dot2 (b1 w) (W2 w) + b2 w)).
Proof.
  intros Hw Hp. apply (returns_values ly p 0 weights w); [done | |].
  - destruct w as [? [b11 b12] ? ?], Hp as [-> | (? & ? & ?)]; [| destruct p];
      unfold_spec; simpl in *; eval_Rmax; f_equal; lra.
  - destruct w as [? [b11 b12] ? ?], Hp as [-> | (? & ? & Hf)]; [| destruct p];
      unfold_spec; unfold dot2 in *; simpl in *.
    + lra.
    + replace (_ * 0 + b11) with b11 by lra.
      replace (_ * 0 + b12) with b12 by lra.
      rewrite (Rmax_0_pos b11), (Rmax_0_pos b12) by done. by apply Rmax_0_pos.
    + lra.
Qed.

Lemma zero_input_boundary_witness :
  let w := Bundle (-1, -2) (0, 0) (3, 4) 5 in
  returns (compute_activations 0 refs "relu" (store_of Keras w))
          (row (0, 0)) (cell (dot2 (0, 0) (3, 4) + 5)).
Proof.
  apply (zero_input_boundary Keras RectifiedLinear refs
           (Bundle (-1, -2) (0, 0) (3, 4) 5));
    [ apply (holds_bundle_store_of Keras) | right; unfold dot2; simpl; lra ].
Defined.

(** C5 as stated fails under the rectified-linear policy, also with
    [b1 = 0]: a negative [b2] is clamped. *)
Lemma zero_input_boundary_counterexample :
  let w := Bundle (1, 1) (0, 0) (1, 1) (-1) in
  let run := compute_activations 0 refs "relu" (store_of Keras w) in
  returns run (row (0, 0)) (cell 0) ∧
  dot2 (b1 w) (W2 w) + b2 w = -1 ∧
  ¬ returns run (row (b1 w)) (cell (dot2 (b1 w) (W2 w) + b2 w)).
Proof.
  intros w run.
  assert (returns run (row (0, 0)) (cell 0)) as Hrun.
  { apply (returns_values Keras RectifiedLinear 0 refs w);
      [ apply (holds_bundle_store_of Keras) | |]; unfold_spec.
    - eval_Rmax. f_equal; lra.
    - eval_Rmax. lra. }
  split; [done|]. split; [unfold dot2; simpl; lra|].
  intros Hb. destruct (returns_inj _ _ _ _ _ Hrun Hb) as [_ [=E]].
  unfold dot2 in E; simpl in E. lra.
Qed.

(** ** The closed form of the linear network *)

Lemma dot2_self_nonneg (v : vec2) : 0 <= dot2 v v.
Proof. unfold dot2. nra. Qed.

Lemma norm_nonneg (v : vec2) : 0 <= norm v.
Proof. apply sqrt_pos. Qed.

Lemma norm_sqr (v : vec2) : norm v * norm v = dot2 v v.
Proof. apply sqrt_sqrt, dot2_self_nonneg. Qed.

Lemma cauchy_schwarz (u v : vec2) :
  dot2 u v * dot2 u v <= dot2 u u * dot2 v v.
Proof.
  destruct u as [a b], v as [c d]. unfold dot2; simpl.
  pose proof (Rle_0_sqr (a * d - b * c)) as Hsq. unfold Rsqr in Hsq. lra.
Qed.

Lemma norm_zero_dot2 (u v : vec2) : norm u * norm v = 0 → dot2 u v = 0.
Proof.
  intros E. pose proof (cauchy_schwarz u v) as Hcs.
  rewrite <- (norm_sqr u), <- (norm_sqr v) in Hcs.
  replace (norm u * norm u * (norm v * norm v))
    with ((norm u * norm v) * (norm u * norm v)) in Hcs by ring.
  rewrite E in Hcs. nra.
Qed.

(** [dot(u, v) = |u| |v| cos(theta)], also when one of the vectors is zero. *)
Lemma dot2_cos (u v : vec2) :
  dot2 u v = norm u * norm v * cos (angle_between u v).
Proof.
  destruct (Req_dec (norm u * norm v) 0) as [E|E].
  - rewrite E, (norm_zero_dot2 _ _ E). ring.
  - pose proof (norm_nonneg u). pose proof (norm_nonneg v).
    assert (0 < norm u * norm v) as Hpos by nra.
    pose proof (cauchy_schwarz u v) as Hcs.
    rewrite <- (norm_sqr u), <- (norm_sqr v) in Hcs.
    unfold angle_between. rewrite cos_acos.
    + field. split; intros Hz; apply E; rewrite Hz; ring.
    + split.
      * apply Rmult_le_reg_r with (norm u * norm v); [done|].
        unfold Rdiv. rewrite Rmult_assoc, Rinv_l by done. nra.
      * apply Rmult_le_reg_r with (norm u * norm v); [done|].
        unfold Rdiv. rewrite Rmult_assoc, Rinv_l by done. nra.
Qed.

(** C3, as amended.  Under the linear policy the output is, in exact
    arithmetic, [x * dot(W1, W2) + dot(b1, W2) + b2]; so with [b1 = 0] it is
    [x * dot(W1, W2) + b2], and with [b1 = 0] and [b2 = 0] it is
    [x * norm(W1) * norm(W2) * cos(angle between W1 and W2)]. *)
Theorem linear_closed_form (ly : layout) (x : R) weights (w : bundle) h :
  holds_bundle ly h weights w →
  ∃ final : R,
    returns (compute_activations x weights "linear" h)
            (hidden_layer ly (affine x (W1 w) (b1 w))) (final_layer ly final) ∧
    final = x * dot2 (W1 w) (W2 w) + dot2 (b1 w) (W2 w) + b2 w ∧
    (b1 w = (0, 0) → final = x * dot2 (W1 w) (W2 w) + b2 w) ∧
    (b1 w = (0, 0) → b2 w = 0 →
     final = x * norm (W1 w) * norm (W2 w) * cos (angle_between (W1 w) (W2 w))).
Proof.
  intros Hw. exists (spec_final Linear x w).
  assert (spec_final Linear x w
          = x * dot2 (W1 w) (W2 w) + dot2 (b1 w) (W2 w) + b2 w) as Hf.
  { unfold_spec. ring. }
  split; [by apply (returns_values ly Linear x weights w)|].
  split; [done|]. rewrite Hf. split.
  - intros ->. unfold dot2; simpl. ring.
  - intros -> ->. rewrite (dot2_cos (W1 w) (W2 w)) at 1.
    unfold dot2 at 1; simpl. ring.
Qed.

Lemma linear_closed_form_witness :
  let w := Bundle (3, 4) (0, 0) (4, 3) 0 in
  ∃ final : R,
    returns (compute_activations 2 refs "linear" (store_of Keras w))
            (row (affine 2 (W1 w) (b1 w))) (cell final) ∧
    final = 2 * dot2 (W1 w) (W2 w) + dot2 (b1 w) (W2 w) + b2 w ∧
    (b1 w = (0, 0) → final = 2 * dot2 (W1 w) (W2 w) + b2 w) ∧
    (b1 w = (0, 0) → b2 w = 0 →
     final = 2 * norm (W1 w) * norm (W2 w) * cos (angle_between (W1 w) (W2 w))).
Proof.
  apply (linear_closed_form Keras 2 refs (Bundle (3, 4) (0, 0) (4, 3) 0)).
  apply (holds_bundle_store_of Keras).
Defined.

(** C3 as stated fails when [b1] is not zero: the output then carries the
    term [dot(b1, W2)], here [1], far above any rounding tolerance. *)
Lemma linear_closed_form_counterexample :
  let w := Bundle (1, 1) (1, 0) (1, 0) 0 in
  let run := compute_activations 0 refs "linear" (store_of Keras w) in
  returns run (row (1, 0)) (cell 1) ∧
  0 * dot2 (W1 w) (W2 w) + b2 w = 0 ∧
  1 / 1000000000 < Rabs (1 - (0 * dot2 (W1 w) (W2 w) + b2 w)).
Proof.
  intros w run. split; [|split].
  - apply (returns_values Keras Linear 0 refs w);
      [ apply (holds_bundle_store_of Keras) | |]; unfold_spec.
    + f_equal; lra.
    + lra.
  - unfold dot2; simpl. lra.
  - unfold dot2; simpl. rewrite Rabs_pos_eq; lra.
Qed.

(** C4.  On the reference weights and [x = 0.5] the linear pass returns
    [hidden = [-0.0849, -0.5695]] and [final = 0.1535] up to the four
    decimals given, and the rectified-linear pass returns zeros. *)
Theorem reference_scenario :
  let w := Bundle (-0.1699, -1.1390) (0, 0) (1.2554, -0.4568) 0 in
  (∃ h1 h2 final : R,
     returns (compute_activations 0.5 refs "linear" (store_of Keras w))
             (row (h1, h2)) (cell final) ∧
     Rabs (h1 - -0.0849) < 0.0001 ∧
     Rabs (h2 - -0.5695) < 0.0001 ∧
     Rabs (final - 0.1535) < 0.0001) ∧
  returns (compute_activations 0.5 refs "relu" (store_of Keras w))
          (row (0, 0)) (cell 0).
Proof.
  intros w. split.
  - exists (-0.08495), (-0.5695), 0.15350137.
    split; [|repeat split; apply Rabs_def1; lra].
    apply (returns_values Keras Linear 0.5 refs w);
      [ apply (holds_bundle_store_of Keras) | |]; unfold_spec.
    + f_equal; lra.
    + lra.
  - apply (returns_values Keras RectifiedLinear 0.5 refs w);
      [ apply (holds_bundle_store_of Keras) | |]; unfold_spec.
    + eval_Rmax. done.
    + eval_Rmax. lra.
Qed.

(** The same pass on the weights as the notebook prints them gives the
    activations it prints. *)
Example notebook_output :
  let w := Bundle (-0.16988075, -1.1390355) (0, 0) (1.2553526, -0.45677203) 0 in
  ∃ h1 h2 final : R,
    returns (compute_activations 0.5 refs "linear" (store_of Keras w))
            (row (h1, h2)) (cell final) ∧
    Rabs (h1 - -0.08494037) < 0.0000001 ∧
    Rabs (h2 - -0.56951773) < 0.0000001 ∧
    Rabs (final - 0.15350965) < 0.0000001.
Proof.
  intros w.
  exists (-0.084940375), (-0.56951775),
    (-0.084940375 * 1.2553526 + -0.56951775 * -0.45677203).
  split; [|repeat split; apply Rabs_def1; lra].
  apply (returns_values Keras Linear 0.5 refs w);
    [ apply (holds_bundle_store_of Keras) | |]; unfold_spec.
  - f_equal; lra.
  - lra.
Qed.

Local Close Scope R_scope.

(** ** What every run guarantees *)

Lemma ensures_bind {S A B} (m : M S A) (f : A → M S B) s Q E :
  ensures (m s) (λ a s', ensures (f a s') Q E) E →
  ensures ((m ≫= f) s) Q E.
Proof. unfold mbind, M_bind. by destruct (m s). Qed.

Lemma ensures_weaken {S A} (o : outcome S A) (Q Q' : A → S → Prop) E E' :
  ensures o Q E →
  (∀ a s, Q a s → Q' a s) → (∀ e s, E e s → E' e s) →
  ensures o Q' E'.
Proof. destruct o; simpl; auto. Qed.

Lemma getitem_frame h0 weights i h :
  h0 `prefix_of` h →
  ensures (getitem weights i h) (λ _ h', h0 `prefix_of` h') (benign h0).
Proof. intros Hp. unfold getitem. by destruct (weights !! i). Qed.

Lemma load_frame h0 v h :
  h0 `prefix_of` h →
  ensures (load v h) (λ _ h', h' = h) (benign h0).
Proof.
  intros Hp. destruct v as [r|l]; simpl; [done|].
  unfold read. by destruct (h !! l).
Qed.

Lemma box_frame h0 c h :
  h0 `prefix_of` h →
  ensures (box c h) (λ r h', h0 `prefix_of` h' ∧ fresh h0 r) (benign h0).
Proof.
  intros Hp. unfold box. destruct (shape c); simpl; [done|].
  split; [by apply prefix_app_r | by apply prefix_length].
Qed.

Lemma binop_frame h0 op u v h :
  h0 `prefix_of` h →
  ensures (binop op u v h) (λ r h', h0 `prefix_of` h' ∧ fresh h0 r) (benign h0).
Proof.
  intros Hp. unfold binop.
  apply ensures_bind.
  eapply ensures_weaken; [by apply load_frame | | done]. intros a ? ->.
  apply ensures_bind.
  eapply ensures_weaken; [by apply load_frame | | done]. intros b ? ->.
  destruct (op a b) as [c|]; [by apply box_frame | done].
Qed.

Lemma relu_frame h0 v h :
  h0 `prefix_of` h → fresh h0 v →
  ensures (relu v h) (λ r h', h0 `prefix_of` h' ∧ fresh h0 r) (benign h0).
Proof.
  intros Hp Hv. destruct v as [r|l]; simpl; [done|].
  unfold mbind, M_bind, read, write.
  destruct (h !! l) as [a|] eqn:E; simpl; [|done].
  rewrite E. simpl. split; [|done].
  destruct Hp as [k ->]. simpl in Hv.
  rewrite insert_app_r_alt by done. by apply prefix_app_r.
Qed.

(** Once the assertion has passed, a run only appends to the store it
    started from, it returns values that are not references into that store,
    and it does not raise [AssertionError]. *)
Lemma compute_activations_frame x weights activations h :
  ensures (compute_activations x weights activations h)
          (λ r h', h `prefix_of` h' ∧ fresh h r.1 ∧ fresh h r.2)
          (λ e h', if existsb (String.eqb activations) ["relu"; "linear"]%string
                   then benign h e h' else e = AssertionError ∧ h' = h).
Proof.
  unfold compute_activations.
  destruct (existsb _ _) eqn:Ha; [|done].
  apply ensures_bind. simpl.
  do 4 (apply ensures_bind;
        eapply ensures_weaken; [by apply (getitem_frame h) | | done];
        intros ? ? ?).
  apply ensures_bind.
  eapply ensures_weaken; [by apply (binop_frame h) | | done]. intros t ? [? _].
  apply ensures_bind.
  eapply ensures_weaken; [by apply (binop_frame h) | | done]. intros hidden ? [? ?].
  destruct (String.eqb activations "relu").
  - apply ensures_bind.
    eapply ensures_weaken; [by apply (relu_frame h) | | done]. intros ? ? [? ?].
    apply ensures_bind.
    eapply ensures_weaken; [by apply (binop_frame h) | | done]. intros ? ? [? _].
    apply ensures_bind.
    eapply ensures_weaken; [by apply (binop_frame h) | | done]. intros ? ? [? ?].
    apply ensures_bind.
    eapply ensures_weaken; [by apply (relu_frame h) | | done]. by intros ? ? [? ?].
  - apply ensures_bind.
    eapply ensures_weaken; [by apply (binop_frame h) | | done]. intros ? ? [? _].
    apply ensures_bind.
    eapply ensures_weaken; [by apply (binop_frame h) | | done]. by intros ? ? [? ?].
Qed.

Lemma denotes_prefix h h' weights args :
  denotes h weights args → h `prefix_of` h' → denotes h' weights args.
Proof.
  intros Hd Hp. eapply Forall2_impl; [exact Hd|].
  intros l a Hl. by apply (prefix_lookup_Some h).
Qed.

(** ** The assertion on the policy *)

(** C10.  Any [activations] other than ['relu'] and ['linear'] makes
    [compute_activations] fail with [AssertionError] at once, the store
    untouched and whatever the weights are; with one of the two the
    assertion never fires. *)
Theorem activations_assertion (x : R) weights (activations : string) h :
  (activations ≠ "relu"%string → activations ≠ "linear"%string →
   compute_activations x weights activations h = Raise AssertionError h) ∧
  (activations = "relu"%string ∨ activations = "linear"%string →
   ¬ raises (compute_activations x weights activations h) AssertionError).
Proof.
  split.
  - intros Hr%String.eqb_neq Hl%String.eqb_neq.
    unfold compute_activations, mbind, M_bind. simpl. by rewrite Hr, Hl.
  - intros Ha Hraise.
    pose proof (compute_activations_frame x weights activations h) as Hf.
    assert (existsb (String.eqb activations) ["relu"; "linear"]%string = true) as E.
    { by destruct Ha as [-> | ->]. }
    rewrite E in Hf.
    destruct (compute_activations x weights activations h); simpl in *; [done|].
    by destruct Hf.
Qed.

Lemma activations_assertion_witness :
  compute_activations 0.5 refs "tanh" [] = Raise AssertionError [] ∧
  ¬ raises (compute_activations 0.5 refs "relu" []) AssertionError.
Proof.
  split.
  - by apply (proj1 (activations_assertion 0.5 refs "tanh" [])).
  - apply (proj2 (activations_assertion 0.5 refs "relu" [])). by left.
Defined.

(** ** Shapes *)

Lemma broadcast_rev_nil_r s : broadcast_rev s [] = Some s.
Proof. by destruct s. Qed.

Lemma broadcast_shapes_nil_r s : broadcast_shapes s [] = Some s.
Proof.
  unfold broadcast_shapes. change (reverse (@nil nat)) with (@nil nat).
  rewrite broadcast_rev_nil_r. simpl. by rewrite reverse_involutive.
Qed.

Lemma reverse_last (s : list nat) k :
  last s = Some k → ∃ r : list nat, reverse s = k :: r.
Proof.
  rewrite <- head_reverse. destruct (reverse s) as [|d r]; [done|].
  intros [= ->]. by exists r.
Qed.

(** [a.dot(x)] for a number [x] keeps the shape of [a]. *)
Lemma dot_scalar_shape a x :
  ∃ c, dot a (scalar x) = Some c ∧ shape c = shape a.
Proof.
  assert (∃ c, elementwise Rmult a (scalar x) = Some c ∧ shape c = shape a)
    as Hc.
  { unfold elementwise. simpl shape at 2. rewrite broadcast_shapes_nil_r.
    simpl. eauto. }
  unfold dot. simpl shape at 2. change (split_last []) with (@None (list nat * nat)).
  by destruct (split_last (shape a)) as [[]|].
Qed.

(** An array whose last axis has three entries cannot be added to one of
    shape [(2,)]. *)
Lemma add_3_2 a b :
  last (shape a) = Some 3%nat → shape b = [2%nat] → add a b = None.
Proof.
  intros (r & Er)%reverse_last Eb.
  unfold add, elementwise, broadcast_shapes. rewrite Er, Eb.
  change (reverse [2%nat]) with [2%nat]. simpl.
  by rewrite broadcast_rev_nil_r.
Qed.

(** C6, as amended.  Under either policy, a [W1] whose last axis has three
    entries (shape [(1, 3)], or [(3,)]) against a [b1] of shape [(2,)] makes
    [compute_activations] fail with numpy's [ValueError] at
    [W1.dot(x) + b1], and the weights of the 1-2-1 network, in either
    layout, raise nothing. *)
Theorem shape_mismatch_error (p : policy) (x : R) weights h :
  (∀ a b : ndarray,
     deref h weights 0 = Some a → deref h weights 1 = Some b →
     is_Some (weights !! 2%nat) → is_Some (weights !! 3%nat) →
     last (shape a) = Some 3%nat → shape b = [2%nat] →
     raises (compute_activations x weights (policy_name p) h) ValueError) ∧
  (∀ (ly : layout) (w : bundle),
     holds_bundle ly h weights w →
     ∃ hidden final,
       returns (compute_activations x weights (policy_name p) h) hidden final).
Proof.
  split.
  - intros a b Wa Wb [l3 G3] [l4 G4] Sa Sb.
    unfold deref in Wa, Wb.
    destruct (weights !! 0%nat) as [l1|] eqn:G1; [|done].
    destruct (weights !! 1%nat) as [l2|] eqn:G2; [|done].
    simpl in Wa, Wb.
    destruct (dot_scalar_shape a x) as (c & Ec & Sc).
    assert (shape c ≠ []) as Hc.
    { rewrite Sc. intros E. by rewrite E in Sa. }
    assert (compute_activations x weights (policy_name p) h
            = Raise ValueError (h ++ [c])) as ->; [|done].
    unfold compute_activations.
    erewrite bind_Ok by (by destruct p).
    do 4 run_getitem.
    erewrite bind_Ok;
      [| eapply binop_array; [solve_fetch | solve_fetch | exact Ec | done ] ].
    apply bind_Raise. unfold np_add, binop.
    erewrite bind_Ok by (apply load_fetch; apply fetch_fresh).
    erewrite bind_Ok by (apply load_fetch; solve_fetch).
    rewrite add_3_2; [done | by rewrite Sc | done].
  - intros ly w Hw. eexists _, _. by apply returns_bundle.
Qed.

Lemma shape_mismatch_error_witness :
  let wide := NDArray [1; 3]%nat [1; 2; 3]%R in
  let w := (Bundle (1, 2) (0, 0) (1, 1) 0)%R in
  raises (compute_activations 1 refs "linear"
            [wide; flat (0, 0)%R; column (1, 1)%R; single 0]) ValueError ∧
  ∃ hidden final,
    returns (compute_activations 1 refs "linear" (store_of Keras w)) hidden final.
Proof.
  split.
  - by apply (proj1 (shape_mismatch_error Linear 1 refs _)
                (NDArray [1; 3]%nat [1; 2; 3]%R) (flat (0, 0)%R)).
  - apply (proj2 (shape_mismatch_error Linear 1 refs _) Keras
             (Bundle (1, 2) (0, 0) (1, 1) 0)%R).
    apply holds_bundle_store_of.
Defined.

(** C6 as stated fails: there is no check of the shapes, and a bias [b1] with
    a single entry is broadcast over the two hidden units without any
    error. *)
Lemma shape_mismatch_error_counterexample :
  let h := [row (1, 2); single 5; column (1, 1); single 0]%R in
  deref h refs 1 = Some (single 5) ∧
  shape (single 5) ≠ shape (flat (0, 0)%R) ∧
  returns (compute_activations 1 refs "linear" h) (row (6, 7)%R) (cell 13).
Proof.
  intros h. split; [done|]. split; [done|].
  cbv -[Rplus Rmult IZR].
  split; do 2 f_equal; repeat f_equal; lra.
Qed.

(** *** Other layouts of the weights *)

(** The layout with [W1] as a column and [W2] as a row is not the one the
    cell takes: the bias is broadcast into a [(2, 2)] hidden array, which
    [dot] then refuses. *)
Example transposed_layout_rejected :
  let h := [column (1, 2); flat (0, 0); row (1, 1); single 0]%R in
  raises (compute_activations 1 refs "linear" h) ValueError.
Proof. reflexivity. Qed.

(** Four flat vectors are accepted: the hidden layer then has shape [(2,)] and
    the output shape [(1,)]. *)
Example flat_layout_accepted :
  let h := [flat (1, 2); flat (0, 0); flat (1, 1); single 0]%R in
  returns (compute_activations 1 refs "linear" h) (flat (1, 2)%R) (single 3).
Proof.
  intros h. cbv -[Rplus Rmult IZR].
  split; do 2 f_equal; repeat f_equal; lra.
Qed.

(** ** The run in the store and the function of the contents *)

(** An array without axes that numpy has computed holds one number. *)
Lemma elementwise_scalar f a b c :
  elementwise f a b = Some c → shape c = [] → c = scalar (item c 0).
Proof.
  unfold elementwise. destruct (broadcast_shapes _ _) as [s|]; [|done].
  simpl. intros [= <-]. simpl. by intros ->.
Qed.

Lemma dot_scalar a b c :
  dot a b = Some c → shape c = [] → c = scalar (item c 0).
Proof.
  unfold dot.
  destruct (split_last (shape a)) as [[sa k]|]; [|apply elementwise_scalar].
  destruct (split_last (shape b)) as [[sb' n]|]; [|apply elementwise_scalar].
  destruct (split_last sb') as [[sb k']|].
  - destruct (k =? k')%nat; [|done]. intros [= <-]. simpl.
    intros E. by destruct sa, sb.
  - destruct (k =? n)%nat; [|done]. intros [= <-]. simpl. by intros ->.
Qed.

Lemma binop_refines op u v a b s :
  numpy_op op → fetch s u = Some a → fetch s v = Some b →
  ensures (binop op u v s)
    (λ r s', ∃ c, op a b = Some c ∧ boxed s r c ∧ fetch s' r = Some c ∧
                  s `prefix_of` s')
    (λ e s', op a b = None ∧ e = ValueError).
Proof.
  intros Hop Hu Hv. unfold binop.
  rewrite (bind_Ok _ _ _ _ _ (load_fetch _ _ _ Hu)).
  rewrite (bind_Ok _ _ _ _ _ (load_fetch _ _ _ Hv)).
  destruct (op a b) as [c|] eqn:Ec; [|done].
  unfold box. destruct (shape c) as [|d sh] eqn:Es; simpl.
  - exists c. pose proof (Hop _ _ _ Ec Es) as Hc.
    repeat split; [done | by rewrite <- Hc |].
    done.
  - exists c. repeat split; [by rewrite Es | by apply list_lookup_middle |].
    by apply prefix_app_r.
Qed.

Lemma relu_refines s0 v c s :
  boxed s0 v c → fetch s v = Some c →
  ensures (relu v s)
    (λ r s', r = v ∧ ∃ l, v = VRef l ∧ l = length s0 ∧
             clamped c = inr (mask_assign c (less c 0) 0) ∧
             s' = <[l := mask_assign c (less c 0) 0]> s)
    (λ e s', clamped c = inl e).
Proof.
  intros Hb Hf. destruct v as [r|l]; simpl in *.
  - by subst c.
  - destruct Hb as [-> Hc]. unfold mbind, M_bind, read, write. rewrite Hf.
    simpl. rewrite Hf. simpl. split; [done|]. eexists; repeat split.
    unfold clamped. by destruct (shape c).
Qed.

Lemma denotes_lookup h weights args i :
  denotes h weights args →
  (∃ l a, weights !! i = Some l ∧ args !! i = Some a ∧ h !! l = Some a) ∨
  (weights !! i = None ∧ args !! i = None).
Proof.
  intros Hd. destruct (weights !! i) as [l|] eqn:E.
  - left. destruct (Forall2_lookup_l _ _ _ _ _ Hd E) as (a & ? & ?). eauto.
  - right. split; [done|]. apply lookup_ge_None.
    rewrite <- (Forall2_length _ _ _ Hd). by apply lookup_ge_None.
Qed.

Lemma insert_prefix (s0 s : heap) c :
  s0 `prefix_of` s → s0 `prefix_of` <[length s0 := c]> s.
Proof.
  intros [k ->]. rewrite insert_app_r_alt by done. by apply prefix_app_r.
Qed.

Lemma fetch_prefix s s' v a :
  fetch s v = Some a → s `prefix_of` s' → fetch s' v = Some a.
Proof. destruct v; simpl; [done | apply prefix_lookup_Some]. Qed.

Lemma fetch_insert_eq (s : heap) l c c' :
  s !! l = Some c → fetch (<[l := c']> s) (VRef l) = Some c'.
Proof. intros E. simpl. apply list_lookup_insert_eq. by eapply lookup_lt_Some. Qed.

Lemma dot_numpy_op : numpy_op dot.
Proof. intros a b c. apply dot_scalar. Qed.

Lemma add_numpy_op : numpy_op add.
Proof. intros a b c. apply elementwise_scalar. Qed.

Lemma getitem_None weights i h :
  weights !! i = None → getitem weights i h = Raise IndexError h.
Proof. intros E. unfold getitem. by rewrite E. Qed.

Lemma argument_Some args i a : args !! i = Some a → argument args i = inr a.
Proof. intros E. unfold argument. by rewrite E. Qed.

Lemma argument_None args i : args !! i = None → argument args i = inl IndexError.
Proof. intros E. unfold argument. by rewrite E. Qed.

Lemma exn_bind_inr {A B} (a : A) (f : A → exn + B) : (inr a ≫= f) = f a.
Proof. reflexivity. Qed.

Lemma exn_bind_inl {A B} (e : exn) (f : A → exn + B) : (inl e ≫= f) = inl e.
Proof. reflexivity. Qed.

(** One step of the run against the same step of [forward]. *)
Tactic Notation "step_getitem" constr(Hd) constr(i) ident(l) ident(a) ident(Hl) :=
  let G := fresh "G" in
  let A := fresh "A" in
  destruct (denotes_lookup _ _ _ i Hd) as [(l & a & G & A & Hl) | [G A]];
  [ erewrite bind_Ok by (apply getitem_Ok; exact G);
    rewrite (argument_Some _ _ _ A), exn_bind_inr;
    match type of Hl with
    | ?s !! _ = _ => change (fetch s (VRef l) = Some a) in Hl
    end
  | erewrite bind_Raise by (apply getitem_None; exact G);
    rewrite (argument_None _ _ A), exn_bind_inl; done ].

Tactic Notation "step_binop" constr(Hop) constr(Hu) constr(Hv)
    ident(t) ident(s) ident(c) ident(B) ident(F) ident(P) :=
  let Hr := fresh "Hr" in
  let R := fresh "R" in
  let D := fresh "D" in
  pose proof (binop_refines _ _ _ _ _ _ Hop Hu Hv) as Hr;
  match type of Hr with
  | ensures ?run _ _ =>
      destruct run as [t s|? ?] eqn:R; unfold ensures in Hr;
      [ destruct Hr as (c & D & B & F & P);
        rewrite (bind_Ok _ _ _ _ _ R), D;
        change (lift (Some c)) with (inr (A:=exn) c);
        rewrite exn_bind_inr
      | destruct Hr as [D ->];
        rewrite (bind_Raise _ _ _ _ _ R), D;
        change (lift None) with (inl (B:=ndarray) ValueError);
        rewrite exn_bind_inl; done ]
  end.

Tactic Notation "step_relu" constr(B) constr(F) ident(C) :=
  let Hr := fresh "Hr" in
  let R := fresh "R" in
  let l := fresh "l" in
  pose proof (relu_refines _ _ _ _ B F) as Hr;
  match type of Hr with
  | ensures ?run _ _ =>
      destruct run as [? ?|? ?] eqn:R; unfold ensures in Hr;
      [ destruct Hr as (-> & l & -> & -> & C & ->);
        rewrite (bind_Ok _ _ _ _ _ R), C, exn_bind_inr
      | rewrite (bind_Raise _ _ _ _ _ R), Hr, exn_bind_inl; done ]
  end.

(** The run in the store computes what [forward] computes from the contents
    of the weights. *)
Lemma compute_activations_forward x weights args activations h :
  denotes h weights args →
  agrees (compute_activations x weights activations h)
         (forward x args activations).
Proof.
  intros Hd. unfold compute_activations, forward.
  destruct (existsb _ _) eqn:Ha; [|done].
  rewrite (bind_Ok _ _ h tt h eq_refl).
  step_getitem Hd 0%nat l1 a1 H1. step_getitem Hd 1%nat l2 a2 H2.
  step_getitem Hd 2%nat l3 a3 H3. step_getitem Hd 3%nat l4 a4 H4.
  unfold np_dot, np_add.
  assert (fetch h (VNum x) = Some (scalar x)) as Hx by done.
  step_binop dot_numpy_op H1 Hx t s1 c1 B1 F1 P1.
  pose proof (fetch_prefix _ _ _ _ H2 P1) as H2'.
  step_binop add_numpy_op F1 H2' hidden s2 c2 B2 F2 P2.
  assert (h `prefix_of` s2) as Q2 by (by etrans).
  destruct (String.eqb activations "relu").
  - step_relu B2 F2 C2.
    pose proof (fetch_insert_eq _ _ _ (mask_assign c2 (less c2 0) 0) F2) as F3.
    pose proof (insert_prefix _ _ (mask_assign c2 (less c2 0) 0) P2) as P3.
    assert (h `prefix_of` <[length s1:=mask_assign c2 (less c2 0) 0]> s2) as Q3
      by (by transitivity s1).
    pose proof (fetch_prefix _ _ _ _ H3 Q3) as H3'.
    step_binop dot_numpy_op F3 H3' t2 s4 c3 B4 F4 P4.
    assert (fetch s4 (VRef l4) = Some a4) as H4'.
    { apply (fetch_prefix h); [done | by etrans; [apply Q3|]]. }
    step_binop add_numpy_op F4 H4' t3 s5 c4 B5 F5 P5.
    step_relu B5 F5 C5.
    simpl. split; [|by apply (fetch_insert_eq _ _ _ _ F5)].
    assert (length s1 < length s4).
    { apply lookup_lt_Some in F2. apply prefix_length in P4.
      rewrite length_insert in P4. lia. }
    rewrite list_lookup_insert_ne by lia.
    apply (prefix_lookup_Some s4); [|done].
    by apply (fetch_prefix _ _ (VRef (length s1)) _ F3).
  - pose proof (fetch_prefix _ _ _ _ H3 Q2) as H3'.
    step_binop dot_numpy_op F2 H3' t2 s3 c3 B3 F3 P3.
    assert (fetch s3 (VRef l4) = Some a4) as H4'.
    { apply (fetch_prefix h); [done | by transitivity s2]. }
    step_binop add_numpy_op F3 H4' final s4 c4 B4 F4 P4.
    simpl. split; [|done].
    apply (fetch_prefix s2); [done | by transitivity s3].
Qed.

Lemma agrees_alike o o' r : agrees o r → agrees o' r → alike o o'.
Proof.
  destruct o as [[vh vf] s|e s], o' as [[vh' vf'] s'|e' s'], r as [e''|[a b]];
    simpl; try done.
  - intros [? ?] [? ?]. split; eauto.
  - by intros -> ->.
Qed.

(** ** The data simulation *)

Section DataSimulationFacts.
Context `{Generator rng}.

Lemma shape_scaled x y n : shape (scaled x y n) = shape x.
Proof.
  unfold scaled. generalize (seq 0 n). intros l. revert x.
  induction l as [|i l IH]; intros x; simpl; [done|]. by rewrite IH.
Qed.

(** The cell, once the sample count and the seed have been accepted. *)
Lemma data_simulation_seeded (n_samples seed : Z) (g : rng) :
  (0 ≤ n_samples)%Z → valid_seed seed = true →
  let n := Z.to_nat n_samples in
  let y := NDArray [n] (draws n (seed_state seed)).1 in
  let x := scaled (NDArray [n; n_features] (replicate (n * n_features) 1%R)) y n in
  data_simulation n_samples seed g
  = train_test_split x y seed (draws n (seed_state seed)).2.
Proof.
  intros Hn Hs. unfold data_simulation, np_ones, np_random_seed, np_random_uniform.
  unfold mbind, M_bind.
  assert ((n_samples <? 0)%Z = false) as -> by lia.
  simpl. rewrite Hs.
  by destruct (draws (Z.to_nat n_samples) (seed_state seed)).
Qed.

Lemma data_simulation_negative (n_samples seed : Z) (g : rng) :
  (n_samples < 0)%Z → data_simulation n_samples seed g = Raise ValueError g.
Proof.
  intros Hn. unfold data_simulation, np_ones, mbind, M_bind.
  by assert ((n_samples <? 0)%Z = true) as -> by lia.
Qed.

Lemma data_simulation_bad_seed (n_samples seed : Z) (g : rng) :
  (0 ≤ n_samples)%Z → valid_seed seed = false →
  data_simulation n_samples seed g = Raise ValueError g.
Proof.
  intros Hn Hs. unfold data_simulation, np_ones, np_random_seed, mbind, M_bind.
  assert ((n_samples <? 0)%Z = false) as -> by lia.
  simpl. by rewrite Hs.
Qed.

(** [train_test_split] on [n] samples: it fails when the training part
    would be empty. *)
Lemma train_test_split_outcome (x y : ndarray) (seed : Z) (g : rng) (n : nat) :
  hd 0%nat (shape x) = n → hd 0%nat (shape y) = n → valid_seed seed = true →
  (n ≤ 1 → train_test_split x y seed g = Raise ValueError g) ∧
  (2 ≤ n → ∃ s, train_test_split x y seed g = Ok s g).
Proof.
  intros Hx Hy Hs. unfold train_test_split. rewrite Hx, Hy, Hs, Nat.eqb_refl.
  simpl negb. cbv iota. split; intros Hn.
  - assert (n = 0 ∨ n = 1)%nat as [-> | ->] by lia; done.
  - assert ((n - (n + 4) / 5 =? 0)%nat = false) as ->; [|by eexists].
    apply Nat.eqb_neq.
    assert ((n + 4) / 5 < n)%nat; [|lia].
    apply Nat.Div0.div_lt_upper_bound. lia.
Qed.

Ltac split_outcome n_samples :=
  match goal with
  | |- context [train_test_split ?x ?y ?seed ?g] =>
      destruct (train_test_split_outcome x y seed g (Z.to_nat n_samples))
        as [Hsmall Hbig]; [by rewrite shape_scaled | done | done |]
  end.

Lemma data_simulation_outcome (n_samples seed : Z) (g : rng) :
  valid_seed seed = true →
  ((n_samples ≤ 1)%Z → raises (data_simulation n_samples seed g) ValueError) ∧
  ((2 ≤ n_samples)%Z →
   ∃ s, data_simulation n_samples seed g
        = Ok s (draws (Z.to_nat n_samples) (seed_state seed)).2).
Proof.
  intros Hs. split; intros Hn.
  - destruct (Z.lt_ge_cases n_samples 0) as [Hneg | Hpos].
    + by rewrite data_simulation_negative.
    + rewrite data_simulation_seeded by done. cbv zeta.
      split_outcome n_samples. rewrite Hsmall; [done | lia].
  - rewrite data_simulation_seeded by (done || lia). cbv zeta.
    split_outcome n_samples. apply Hbig. lia.
Qed.

(** The outcome does not depend on the state of the global generator. *)
Lemma data_simulation_result (n_samples seed : Z) (g1 g2 : rng) :
  result (data_simulation n_samples seed g1)
  = result (data_simulation n_samples seed g2).
Proof.
  destruct (Z.lt_ge_cases n_samples 0) as [Hneg | Hpos].
  { by rewrite !data_simulation_negative. }
  destruct (valid_seed seed) eqn:Hs.
  - by rewrite !data_simulation_seeded.
  - by rewrite !data_simulation_bad_seed.
Qed.

End DataSimulationFacts.




(** C8.  Two runs of the data simulation with the same sample count and seed
    hand back the same subsets (or the same exception) whatever the state of
    the global generator each starts from; and calling [compute_activations]
    again on the same weights, in the store the first call has left, ends as
    the first call did: with the same exception, or with arrays equal to the
    first ones. *)
Theorem repeat_runs_agree `{Generator rng} :
  (∀ (n_samples seed : Z) (g1 g2 : rng),
     result (data_simulation n_samples seed g1)
     = result (data_simulation n_samples seed g2)) ∧
  (∀ (x : R) weights activations (args : list ndarray) h,
     denotes h weights args →
     let first := compute_activations x weights activations h in
     let second := compute_activations x weights activations (final_state first) in
     alike first second).
Proof.
  split.
  - apply data_simulation_result.
  - intros x weights activations args h Hd first second.
    apply (agrees_alike _ _ (forward x args activations)).
    + by apply compute_activations_forward.
    + apply compute_activations_forward.
      apply (denotes_prefix h); [done|]. subst first.
      pose proof (compute_activations_frame x weights activations h) as Hf.
      destruct (compute_activations x weights activations h) as [r h'|e h'];
        unfold ensures in Hf; simpl final_state; [by destruct Hf|].
      destruct (existsb _ _); [by destruct Hf | by destruct Hf as [_ ->]].
Qed.

Lemma repeat_runs_agree_witness :
  let w := (Bundle (-1, 2) (0, 0) (1, 1) 0)%R in
  result (data_simulation 2000 23 0%Z) = result (data_simulation 2000 23 7%Z) ∧
  let first := compute_activations 1 refs "relu" (store_of Keras w) in
  let second := compute_activations 1 refs "relu" (final_state first) in
  alike first second.
Proof.
  split.
  - apply (proj1 repeat_runs_agree).
  - apply (proj2 (repeat_runs_agree (rng := Z)) 1%R refs "relu"%string
             (store_of Keras (Bundle (-1, 2) (0, 0) (1, 1) 0)%R)).
    by repeat constructor.
Defined.




(** *** The samples and the sizes of the two parts *)

Section SampleSet.
Context `{Generator rng}.

Lemma length_draws (n : nat) (g : rng) : length (draws n g).1 = n.
Proof.
  revert g. induction n as [|n IH]; intros g; simpl; [done|].
  destruct (random_sample g) as [v g']. specialize (IH g').
  destruct (draws n g') as [vs g'']. simpl in *. by rewrite IH.
Qed.

(** After [k] rounds of the loop the first [k] inputs are the targets and the
    others are still [1]. *)
Lemma scaled_data (vs : list R) (n k : nat) :
  length vs = n → k ≤ n →
  scaled (NDArray [n; n_features] (replicate (n * n_features) 1%R))
         (NDArray [n] vs) k
  = NDArray [n; n_features] (take k vs ++ replicate (n - k) 1%R).
Proof.
  intros Hvs. unfold n_features. rewrite Nat.mul_1_r.
  induction k as [|k IH]; intros Hk.
  - by rewrite Nat.sub_0_r.
  - unfold scaled in *. rewrite seq_S, foldl_app, IH by lia. simpl.
    destruct (lookup_lt_is_Some_2 vs k ltac:(lia)) as [v Hv].
    unfold scale_row, item. simpl.
    rewrite (nth_lookup_Some _ _ _ _ Hv).
    assert (length (take k vs) = k) as Hlen by (rewrite length_take; lia).
    rewrite Nat.mul_1_r.
    rewrite (take_app_length' (take k vs)) by done.
    rewrite (drop_app_length' (take k vs)) by done.
    rewrite drop_app_ge by lia. rewrite Hlen.
    replace (n - k)%nat with (S (n - S k)) by lia. simpl.
    replace (k + 1 - k)%nat with 1%nat by lia. simpl.
    rewrite Rmult_1_l, (take_S_r _ _ _ Hv), <- app_assoc. done.
Qed.

(** Every input equals its target. *)
Lemma inputs_equal_targets (vs : list R) (n : nat) :
  length vs = n →
  data (scaled (NDArray [n; n_features] (replicate (n * n_features) 1%R))
               (NDArray [n] vs) n)
  = vs.
Proof.
  intros Hvs. rewrite scaled_data by done.
  simpl. rewrite Nat.sub_diag, take_ge by lia. apply app_nil_r.
Qed.

(** From two samples on, [ceil(n / 5)] of them go to the evaluation part and
    the others to the training part. *)
Lemma split_sizes (n_samples seed : Z) (g g' : rng) (s : split) :
  permutes → valid_seed seed = true → (2 ≤ n_samples)%Z →
  data_simulation n_samples seed g = Ok s g' →
  let n := Z.to_nat n_samples in
  let n_test := ((n + 4) / 5)%nat in
  shape (x_train s) = [n - n_test; n_features] ∧
  shape (x_test s) = [n_test; n_features] ∧
  shape (y_train s) = [n - n_test] ∧
  shape (y_test s) = [n_test].
Proof.
  intros Hperm Hs Hn. rewrite data_simulation_seeded by (done || lia).
  cbv zeta. unfold train_test_split. rewrite shape_scaled. cbn [shape hd].
  rewrite Nat.eqb_refl, Hs. cbn [negb].
  set (n := Z.to_nat n_samples).
  assert (2 ≤ n) by lia.
  assert ((n + 4) / 5 < n)%nat by (apply Nat.Div0.div_lt_upper_bound; lia).
  assert ((n - (n + 4) / 5 =? 0)%nat = false) as -> by (apply Nat.eqb_neq; lia).
  remember ((n + 4) / 5)%nat as n_test eqn:Etest.
  intros [= <- _]. unfold take_rows. simpl. rewrite shape_scaled. simpl.
  assert (length (permutation (seed_state seed) n) = n) as Hlen.
  { rewrite (Permutation_length (Hperm _ _)). apply length_seq. }
  rewrite !length_take, length_drop, Hlen.
  repeat split; f_equal; lia.
Qed.

End SampleSet.

Lemma toy_permutes : permutes (rng := Z).
Proof.
  intros g n. simpl. unfold toy_permutation, rotate.
  rewrite Permutation_app_comm. by rewrite take_drop.
Qed.

(** The sample count of the notebook: 1600 training and 400 evaluation
    samples. *)
Example notebook_split (s : split) (g' : Z) :
  data_simulation 2000 23 0%Z = Ok s g' →
  shape (x_train s) = [1600; 1]%nat ∧ shape (x_test s) = [400; 1]%nat ∧
  shape (y_train s) = [1600]%nat ∧ shape (y_test s) = [400]%nat.
Proof.
  intros Hrun.
  by apply (split_sizes 2000 23 0%Z g' s toy_permutes eq_refl ltac:(lia)).
Qed.

(** * Further properties of the cells *)

(** ** [relu] *)

Lemma mask_assign_clamp a :
  mask_assign a (less a 0) 0 = NDArray (shape a) (map clamp (data a)).
Proof.
  unfold mask_assign, less. f_equal.
  induction (data a) as [|v d IH]; simpl; [done|]. by rewrite IH.
Qed.

Lemma clamp_clamp v : clamp (clamp v) = clamp v.
Proof.
  rewrite !clamp_Rmax. unfold Rmax.
  repeat destruct (Rle_dec _ _); lra.
Qed.

(** X1.  [relu] on an array of the store returns the reference it was given;
    the array keeps its shape, each entry [v] has become [max(v, 0)], and no
    other array of the store has changed. *)
Theorem relu_postcondition (l : loc) (a : ndarray) h :
  h !! l = Some a →
  ∃ h', relu (VRef l) h = Ok (VRef l) h' ∧
        h' !! l = Some (NDArray (shape a) (map (λ v, Rmax v 0) (data a))) ∧
        length h' = length h ∧
        ∀ l', l' ≠ l → h' !! l' = h !! l'.
Proof.
  intros Hl. eexists. split; [by apply relu_array|].
  rewrite mask_assign_clamp. repeat split.
  - rewrite list_lookup_insert_eq by (by eapply lookup_lt_Some).
    do 2 f_equal. apply map_ext. intros v. apply clamp_Rmax.
  - apply length_insert.
  - intros l' Hne. by apply list_lookup_insert_ne.
Qed.

Lemma relu_postcondition_witness :
  ∃ h', relu (VRef 1) [single 5; flat (-1, 2)%R] = Ok (VRef 1) h' ∧
        h' !! 1%nat = Some (NDArray [2%nat] (map (λ v, Rmax v 0) [-1; 2]%R)) ∧
        length h' = 2%nat ∧
        ∀ l', l' ≠ 1%nat → h' !! l' = [single 5; flat (-1, 2)%R] !! l'.
Proof.
  by apply (relu_postcondition 1 (flat (-1, 2)%R) [single 5; flat (-1, 2)%R]).
Defined.

(** X2.  [relu] is idempotent: applying it to its own result changes
    nothing more. *)
Theorem relu_idempotent (l : loc) (a : ndarray) h :
  h !! l = Some a →
  (relu (VRef l) ≫= relu) h = relu (VRef l) h.
Proof.
  intros Hl. rewrite (bind_Ok _ _ _ _ _ (relu_array _ _ _ Hl)).
  assert (l < length h) as Hlt by (by eapply lookup_lt_Some).
  rewrite (relu_array l (mask_assign a (less a 0) 0))
    by (by apply list_lookup_insert_eq).
  rewrite (relu_array _ _ _ Hl), list_insert_insert_eq.
  do 2 f_equal. rewrite !mask_assign_clamp. simpl. f_equal.
  rewrite map_map. apply map_ext. intros v. apply clamp_clamp.
Qed.

Lemma relu_idempotent_witness :
  (relu (VRef 0) ≫= relu) [flat (-1, 2)%R] = relu (VRef 0) [flat (-1, 2)%R].
Proof. by apply (relu_idempotent 0 (flat (-1, 2)%R)). Defined.

(** ** The exceptions of [compute_activations] *)

Lemma agrees_raises o r e : agrees o r → raises o e ↔ r = inl e.
Proof.
  destruct o as [[vh vf] s|e' s], r as [e''|[a b]]; simpl; try done.
  intros ->. split; [by intros -> | by intros [= ->]].
Qed.

Lemma argument_inl args i e :
  argument args i = inl e → e = IndexError ∧ length args ≤ i.
Proof.
  unfold argument. destruct (args !! i) eqn:E; [done|].
  intros [= <-]. split; [done|]. by apply lookup_ge_None.
Qed.

Lemma argument_inr args i a : argument args i = inr a → i < length args.
Proof.
  unfold argument. destruct (args !! i) eqn:E; [|done].
  intros _. by eapply lookup_lt_Some.
Qed.

Lemma lift_inl o e : lift o = inl e → e = ValueError.
Proof. destruct o; [done|]. by intros [= <-]. Qed.

Lemma clamped_inl a e : clamped a = inl e → e = TypeError.
Proof. unfold clamped. destruct (shape a); [|done]. by intros [= <-]. Qed.

Lemma clamped_inr a c : clamped a = inr c → nonnegative c.
Proof.
  unfold clamped. destruct (shape a); [done|]. intros [= <-].
  rewrite mask_assign_clamp. unfold nonnegative. simpl.
  apply Forall_fmap, Forall_true. intros v. simpl.
  rewrite clamp_Rmax. apply Rmax_r.
Qed.

(** The exceptions of [forward], step by step. *)
Ltac forward_steps :=
  repeat match goal with
    | |- context [argument ?args ?i ≫= _] =>
        let E := fresh "Ea" in
        destruct (argument args i) eqn:E;
        [ rewrite exn_bind_inl; apply argument_inl in E as [-> ?]
        | rewrite exn_bind_inr; apply argument_inr in E ]
    | |- context [lift ?o ≫= _] =>
        let E := fresh "El" in
        destruct (lift o) eqn:E;
        [ rewrite exn_bind_inl; apply lift_inl in E as ->
        | rewrite exn_bind_inr; clear E ]
    | |- context [clamped ?a ≫= _] =>
        let E := fresh "Ec" in
        destruct (clamped a) eqn:E;
        [ rewrite exn_bind_inl; apply clamped_inl in E as ->
        | rewrite exn_bind_inr; apply clamped_inr in E ]
    end.

Lemma forward_exceptions x args activations e :
  forward x args activations = inl e →
  match e with
  | AssertionError =>
      existsb (String.eqb activations) ["relu"; "linear"]%string = false
  | IndexError =>
      existsb (String.eqb activations) ["relu"; "linear"]%string = true ∧
      length args < 4
  | ValueError => 4 ≤ length args
  | TypeError => activations = "relu"%string ∧ 4 ≤ length args
  | DanglingRef => False
  end.
Proof.
  unfold forward. destruct (existsb _ _) eqn:Ha; [|by intros [= <-]].
  destruct (String.eqb_spec activations "relu") as [Hr|Hr];
    forward_steps; intros [= <-]; try done; try lia; split; (done || lia).
Qed.

Lemma forward_short x args activations :
  existsb (String.eqb activations) ["relu"; "linear"]%string = true →
  length args < 4 → forward x args activations = inl IndexError.
Proof.
  intros Ha Hlen. unfold forward. rewrite Ha.
  destruct (String.eqb activations "relu"); forward_steps; (done || lia).
Qed.

(** X3.  With a store that holds an array behind every reference of
    [weights]: [compute_activations] raises [IndexError] exactly when the
    policy is accepted and [weights] has fewer than four entries; it raises
    [TypeError] under the policy ['relu'] only; a shape mismatch,
    [ValueError], needs four arrays to show; and no reference is ever
    followed out of the store. *)
Theorem exceptions_raised (x : R) weights (args : list ndarray)
    (activations : string) h :
  denotes h weights args →
  let run := compute_activations x weights activations h in
  (raises run IndexError ↔
     (activations = "relu"%string ∨ activations = "linear"%string) ∧
     length weights < 4) ∧
  (raises run TypeError → activations = "relu"%string) ∧
  (raises run ValueError → 4 ≤ length weights) ∧
  ¬ raises run DanglingRef.
Proof.
  intros Hd run. pose proof (compute_activations_forward x _ _ activations _ Hd) as Hag.
  pose proof (Forall2_length _ _ _ Hd) as Hlen. fold run in Hag.
  assert (existsb (String.eqb activations) ["relu"; "linear"]%string = true
          ↔ activations = "relu"%string ∨ activations = "linear"%string) as Hpol.
  { simpl. by rewrite orb_false_r, orb_true_iff, !String.eqb_eq. }
  split; [split|split; [|split]].
  - intros Hr. apply (agrees_raises _ _ _ Hag), forward_exceptions in Hr.
    cbv iota in Hr. destruct Hr as [Ha Hs]. split; [by apply Hpol | lia].
  - intros [Ha Hs]. apply (agrees_raises _ _ _ Hag).
    apply forward_short; [by apply Hpol | lia].
  - intros Hr. apply (agrees_raises _ _ _ Hag), forward_exceptions in Hr.
    cbv iota in Hr. tauto.
  - intros Hr. apply (agrees_raises _ _ _ Hag), forward_exceptions in Hr.
    cbv iota in Hr. lia.
  - intros Hr. by apply (agrees_raises _ _ _ Hag), forward_exceptions in Hr.
Qed.

Lemma exceptions_raised_witness :
  let run := compute_activations 1 [0; 1; 2]%nat "linear"
               (store_of Keras (Bundle (1, 2) (0, 0) (1, 1) 0)%R) in
  (raises run IndexError ↔
     ("linear" = "relu" ∨ "linear" = "linear")%string ∧
     length [0; 1; 2]%nat < 4) ∧
  (raises run TypeError → "linear"%string = "relu"%string) ∧
  (raises run ValueError → 4 ≤ length [0; 1; 2]%nat) ∧
  ¬ raises run DanglingRef.
Proof.
  apply (exceptions_raised 1 [0; 1; 2]%nat
           [row (1, 2)%R; flat (0, 0)%R; column (1, 1)%R]).
  by repeat constructor.
Defined.

(** X4.  Under the policy ['relu'] no entry of the two arrays returned is
    negative, whatever the shapes of the weights are. *)
Theorem relu_outputs_nonnegative (x : R) weights (args : list ndarray) h
    (hidden final : value) h' :
  denotes h weights args →
  compute_activations x weights "relu" h = Ok (hidden, final) h' →
  ∃ a b, fetch h' hidden = Some a ∧ fetch h' final = Some b ∧
         nonnegative a ∧ nonnegative b.
Proof.
  intros Hd Hrun.
  pose proof (compute_activations_forward x _ _ "relu" _ Hd) as Hag.
  rewrite Hrun in Hag. unfold agrees in Hag.
  destruct (forward x args "relu") as [e|[a b]] eqn:Hf; [done|].
  exists a, b. destruct Hag as [-> ->]. split; [done|]. split; [done|].
  revert Hf. unfold forward. simpl existsb. simpl String.eqb. cbv iota.
  forward_steps; try done. by intros [= <- <-].
Qed.

Lemma relu_outputs_nonnegative_witness :
  ∃ a b,
    fetch (store_of Keras (Bundle (-1, 2) (0, 0) (1, 1) 0)%R
             ++ trace Keras RectifiedLinear 1 (Bundle (-1, 2) (0, 0) (1, 1) 0)%R)
          (VRef 5) = Some a ∧
    fetch (store_of Keras (Bundle (-1, 2) (0, 0) (1, 1) 0)%R
             ++ trace Keras RectifiedLinear 1 (Bundle (-1, 2) (0, 0) (1, 1) 0)%R)
          (VRef 7) = Some b ∧
    nonnegative a ∧ nonnegative b.
Proof.
  apply (relu_outputs_nonnegative 1 refs
           (store_of Keras (Bundle (-1, 2) (0, 0) (1, 1) 0)%R)
           (store_of Keras (Bundle (-1, 2) (0, 0) (1, 1) 0)%R)).
  - by repeat constructor.
  - apply (compute_activations_keras RectifiedLinear).
    apply holds_bundle_store_of.
Defined.

(** ** Numbers instead of arrays *)

Lemma add_scalar_scalar r s :
  add (scalar r) (scalar s) = Some (scalar (r + s)%R).
Proof. reflexivity. Qed.

(** X5.  With flat kernels and a second bias [b2] that is an array without
    axes, [hidden.dot(W2) + b2] is a number: the policy ['linear'] returns it
    as the final value, and the policy ['relu'] fails with [TypeError],
    since [relu] cannot assign into a number. *)
Theorem axisless_bias (x : R) weights (w : bundle) h :
  deref h weights 0 = Some (flat (W1 w)) →
  deref h weights 1 = Some (flat (b1 w)) →
  deref h weights 2 = Some (flat (W2 w)) →
  deref h weights 3 = Some (scalar (b2 w)) →
  returns (compute_activations x weights "linear" h)
          (flat (spec_hidden Linear x w)) (scalar (spec_final Linear x w)) ∧
  raises (compute_activations x weights "relu" h) TypeError.
Proof.
  unfold deref. intros H1 H2 H3 H4.
  destruct (weights !! 0%nat) as [l1|] eqn:G1; [|done].
  destruct (weights !! 1%nat) as [l2|] eqn:G2; [|done].
  destruct (weights !! 2%nat) as [l3|] eqn:G3; [|done].
  destruct (weights !! 3%nat) as [l4|] eqn:G4; [|done].
  simpl in H1, H2, H3, H4. split.
  - assert (compute_activations x weights "linear" h
            = Ok (VRef (length h + 1), VNum (spec_final Linear x w))
                 (h ++ [flat ((W1 w).1 * x, (W1 w).2 * x)%R;
                        flat (spec_hidden Linear x w)])) as ->.
    { unfold compute_activations. simpl existsb. simpl String.eqb. cbv iota.
      erewrite bind_Ok by reflexivity.
      do 4 run_getitem.
      run_binop dot_flat_scalar. run_binop add_flat_flat.
      run_number dot_flat_flat. run_number add_scalar_scalar.
      unfold mret, M_ret. rewrite !length_app, <- !app_assoc. simpl.
      unfold spec_final, spec_hidden, affine, activation, dot2. simpl.
      do 3 f_equal. lra. }
    simpl. split; [|done]. rewrite lookup_app_r by lia.
    by replace (length h + 1 - length h)%nat with 1%nat by lia.
  - assert (∃ h', compute_activations x weights "relu" h = Raise TypeError h')
      as [h' ->]; [|done].
    unfold compute_activations. simpl existsb. simpl String.eqb. cbv iota.
    erewrite bind_Ok by reflexivity.
    do 4 run_getitem.
    run_binop dot_flat_scalar. run_binop add_flat_flat.
    run_relu. rewrite mask_assign_flat.
    run_number dot_flat_flat. run_number add_scalar_scalar.
    eexists. reflexivity.
Qed.

Lemma axisless_bias_witness :
  let w := (Bundle (1, 2) (0, 0) (1, 1) 3)%R in
  let h := [flat (1, 2); flat (0, 0); flat (1, 1); scalar 3]%R in
  returns (compute_activations 1 refs "linear" h)
          (flat (spec_hidden Linear 1 w)) (scalar (spec_final Linear 1 w)) ∧
  raises (compute_activations 1 refs "relu" h) TypeError.
Proof.
  by apply (axisless_bias 1 refs (Bundle (1, 2) (0, 0) (1, 1) 3)%R).
Defined.

(** ** The two policies side by side *)

Local Open Scope R_scope.

(** X6.  When nothing is negative, neither the hidden pre-activations
    [W1 * x + b1] nor the output computed from them, the two policies return
    equal arrays. *)
Theorem policies_coincide (ly : layout) (x : R) weights (w : bundle) h :
  holds_bundle ly h weights w →
  let pre := affine x (W1 w) (b1 w) in
  0 <= pre.1 → 0 <= pre.2 → 0 <= dot2 pre (W2 w) + b2 w →
  ∃ hidden final,
    returns (compute_activations x weights "relu" h) hidden final ∧
    returns (compute_activations x weights "linear" h) hidden final.
Proof.
  intros Hw pre H1 H2 Hf.
  exists (hidden_layer ly pre), (final_layer ly (dot2 pre (W2 w) + b2 w)).
  split.
  - apply (returns_values ly RectifiedLinear x weights w); [done| |].
    + unfold spec_hidden, activation. fold pre. by rewrite !Rmax_0_pos.
    + unfold spec_final, spec_hidden, activation. fold pre.
      rewrite (Rmax_0_pos pre.1), (Rmax_0_pos pre.2) by done.
      replace (pre.1, pre.2) with pre by (by destruct pre).
      by apply Rmax_0_pos.
  - apply (returns_values ly Linear x weights w); [done| |].
    + unfold spec_hidden, activation. fold pre. by destruct pre.
    + unfold spec_final, spec_hidden, activation. fold pre. by destruct pre.
Qed.

Lemma policies_coincide_witness :
  let w := Bundle (1, 2) (0, 0) (1, 1) 0 in
  ∃ hidden final,
    returns (compute_activations 1 refs "relu" (store_of Flat w)) hidden final ∧
    returns (compute_activations 1 refs "linear" (store_of Flat w)) hidden final.
Proof.
  apply (policies_coincide Flat 1 refs (Bundle (1, 2) (0, 0) (1, 1) 0));
    [ apply holds_bundle_store_of | unfold dot2; simpl; lra .. ].
Defined.

(** X7.  The closing remark of the notebook: with zero biases, a positive
    input and both components of [W1] positive, every hidden unit is active,
    the rectified-linear output is [max(x * dot(W1, W2), 0)], and it is
    positive exactly when the angle between [W1] and [W2] has a positive
    cosine, that is when the angle is acute. *)
Theorem active_when_acute (ly : layout) (x : R) weights (w : bundle) h :
  holds_bundle ly h weights w →
  b1 w = (0, 0) → b2 w = 0 →
  0 < (W1 w).1 → 0 < (W1 w).2 → 0 < x →
  ∃ final : R,
    returns (compute_activations x weights "relu" h)
            (hidden_layer ly ((W1 w).1 * x, (W1 w).2 * x)) (final_layer ly final) ∧
    final = Rmax (x * dot2 (W1 w) (W2 w)) 0 ∧
    (0 < final ↔ 0 < cos (angle_between (W1 w) (W2 w))).
Proof.
  intros Hw Hb1 Hb2 Hw1 Hw2 Hx.
  assert (0 < (W1 w).1 * x) as Hp1 by nra.
  assert (0 < (W1 w).2 * x) as Hp2 by nra.
  assert (spec_hidden RectifiedLinear x w = ((W1 w).1 * x, (W1 w).2 * x)) as Hh.
  { unfold spec_hidden, affine, activation. rewrite Hb1. simpl.
    rewrite !Rmax_0_pos by lra. f_equal; lra. }
  assert (spec_final RectifiedLinear x w = Rmax (x * dot2 (W1 w) (W2 w)) 0) as Hf.
  { unfold spec_final. rewrite Hh, Hb2. unfold activation, dot2. simpl.
    f_equal. lra. }
  exists (Rmax (x * dot2 (W1 w) (W2 w)) 0).
  split; [by apply (returns_values ly RectifiedLinear x weights w)|].
  split; [done|].
  pose proof (norm_nonneg (W1 w)) as Hn1. pose proof (norm_nonneg (W2 w)) as Hn2.
  pose proof (dot2_cos (W1 w) (W2 w)) as Hcos.
  assert (0 < norm (W1 w)) as Hn1'.
  { pose proof (norm_sqr (W1 w)) as Hs. unfold dot2 in Hs at 1. nra. }
  set (c := cos (angle_between (W1 w) (W2 w))) in *.
  set (d := dot2 (W1 w) (W2 w)) in *.
  unfold Rmax. destruct (Rle_dec (x * d) 0) as [Hle|Hgt].
  - split; [lra|]. intros Hc.
    destruct (Req_dec (norm (W2 w)) 0) as [Hz|Hnz].
    + exfalso. subst c. unfold angle_between in Hc. revert Hc.
      rewrite Hz, Rmult_0_r. unfold Rdiv. rewrite Rinv_0, Rmult_0_r, acos_0, cos_PI2.
      lra.
    + assert (0 < d) by (rewrite Hcos; apply Rmult_lt_0_compat; nra). nra.
  - split; [|lra]. intros _.
    assert (0 < d) as Hd by nra. rewrite Hcos in Hd.
    assert (0 <= norm (W1 w) * norm (W2 w)) by nra. nra.
Qed.

Lemma active_when_acute_witness :
  let w := Bundle (1, 2) (0, 0) (1, 1) 0 in
  ∃ final : R,
    returns (compute_activations 1 refs "relu" (store_of Keras w))
            (row (1 * 1, 2 * 1)) (cell final) ∧
    final = Rmax (1 * dot2 (W1 w) (W2 w)) 0 ∧
    (0 < final ↔ 0 < cos (angle_between (W1 w) (W2 w))).
Proof.
  apply (active_when_acute Keras 1 refs (Bundle (1, 2) (0, 0) (1, 1) 0));
    [ apply holds_bundle_store_of | done | done | simpl; lra .. ].
Defined.

Local Close Scope R_scope.

(** ** The report *)

Lemma first_entry_row v h l :
  h !! l = Some (row v) → first_entry (VRef l) h = Ok (flat v) h.
Proof.
  intros E. unfold first_entry, read, mbind, M_bind. by rewrite E.
Qed.

Lemma first_entry_cell r h l :
  h !! l = Some (cell r) → first_entry (VRef l) h = Ok (single r) h.
Proof.
  intros E. unfold first_entry, read, mbind, M_bind. by rewrite E.
Qed.

(** X8.  The report cell on two lists of weights in the layout of
    [model.weights], which may share arrays or be the same list: it prints
    the hidden vector and the one-entry final vector of the rectified-linear
    pass and then those of the linear pass; the second pass finds the
    weights as they were and leaves the results of the first in place. *)
Theorem report_prints (x : R) relu_init linear_init (w w' : bundle) h :
  holds_bundle Keras h relu_init w →
  holds_bundle Keras h linear_init w' →
  ∃ h',
    report x relu_init linear_init h
    = Ok (flat (spec_hidden RectifiedLinear x w),
          single (spec_final RectifiedLinear x w),
          flat (spec_hidden Linear x w'),
          single (spec_final Linear x w')) h' ∧
    h `prefix_of` h'.
Proof.
  intros Hw Hw'. unfold report.
  change "relu"%string with (policy_name RectifiedLinear).
  change "linear"%string with (policy_name Linear).
  rewrite (bind_Ok _ _ _ _ _ (compute_activations_keras RectifiedLinear x _ _ _ Hw)).
  pose proof (holds_bundle_app Keras h (trace Keras RectifiedLinear x w) _ _ Hw')
    as Hw''.
  rewrite (bind_Ok _ _ _ _ _ (compute_activations_keras Linear x _ _ _ Hw'')).
  set (t := trace Keras RectifiedLinear x w).
  set (t' := trace Keras Linear x w').
  assert (∀ i a, t !! i = Some a → ((h ++ t) ++ t') !! (length h + i)%nat = Some a)
    as Ht.
  { intros i a Hi. apply lookup_app_l_Some.
    rewrite lookup_app_r by lia.
    by replace (length h + i - length h)%nat with i by lia. }
  assert (∀ i a, t' !! i = Some a →
                 ((h ++ t) ++ t') !! (length (h ++ t) + i)%nat = Some a) as Ht'.
  { intros i a Hi. rewrite lookup_app_r by lia.
    by replace (length (h ++ t) + i - length (h ++ t))%nat with i by lia. }
  erewrite bind_Ok by (by apply first_entry_row, (Ht 1%nat)).
  erewrite bind_Ok by (by apply first_entry_cell, (Ht 3%nat)).
  erewrite bind_Ok by (by apply first_entry_row, (Ht' 1%nat)).
  erewrite bind_Ok by (by apply first_entry_cell, (Ht' 3%nat)).
  eexists. split; [reflexivity|].
  rewrite <- app_assoc. by apply prefix_app_r.
Qed.

Lemma report_prints_witness :
  let w := (Bundle (-1, -2) (0, 0) (3, 4) 0)%R in
  ∃ h',
    report 0.5 refs refs (store_of Keras w)
    = Ok (flat (spec_hidden RectifiedLinear 0.5 w),
          single (spec_final RectifiedLinear 0.5 w),
          flat (spec_hidden Linear 0.5 w),
          single (spec_final Linear 0.5 w)) h' ∧
    store_of Keras w `prefix_of` h'.
Proof.
  apply (report_prints 0.5 refs refs (Bundle (-1, -2) (0, 0) (3, 4) 0)%R);
    apply holds_bundle_store_of.
Defined.

(** ** The samples of the simulation *)

Section Samples.
Context `{Generator rng}.

(** A run that returns has got past every check. *)
Lemma data_simulation_Ok_inv (n_samples seed : Z) (g g' : rng) (s : split) :
  data_simulation n_samples seed g = Ok s g' →
  (2 ≤ n_samples)%Z ∧ valid_seed seed = true.
Proof.
  intros Hrun. destruct (valid_seed seed) eqn:Hs.
  - split; [|done].
    destruct (Z.le_gt_cases 2 n_samples) as [|Hsmall]; [done|].
    pose proof (proj1 (data_simulation_outcome n_samples seed g Hs)
                  ltac:(lia)) as Hr.
    by rewrite Hrun in Hr.
  - destruct (Z.lt_ge_cases n_samples 0) as [Hneg|Hpos].
    + by rewrite data_simulation_negative in Hrun.
    + by rewrite data_simulation_bad_seed in Hrun.
Qed.

(** The rows of a list of numbers, one entry wide. *)
Lemma take_rows_data (vs : list R) (sh : list nat) (ind : list nat) :
  size (tail sh) = 1%nat → Forall (λ i, i < length vs) ind →
  data (take_rows (NDArray sh vs) ind) = map (λ i, nth i vs 0%R) ind.
Proof.
  intros Hw Hind. unfold take_rows. simpl. rewrite Hw.
  induction Hind as [|i ind Hi _ IH]; simpl; [done|].
  rewrite IH. f_equal.
  destruct (lookup_lt_is_Some_2 vs i Hi) as [v Hv].
  rewrite Nat.mul_1_r, (nth_lookup_Some _ _ _ _ Hv).
  rewrite <- (take_drop_middle _ _ _ Hv).
  rewrite drop_app_length' by (rewrite length_take; lia). done.
Qed.

Lemma map_nth_seq (vs : list R) : map (λ i, nth i vs 0%R) (seq 0 (length vs)) = vs.
Proof.
  apply list_eq. intros i. rewrite list_lookup_fmap.
  destruct (decide (i < length vs)) as [Hi|Hi].
  - rewrite lookup_seq_lt by done. simpl.
    destruct (lookup_lt_is_Some_2 vs i Hi) as [v Hv].
    by rewrite Hv, (nth_lookup_Some _ _ _ _ Hv).
  - rewrite lookup_seq_ge by lia. simpl. symmetry. apply lookup_ge_None. lia.
Qed.

(** X9.  In both parts that the simulation returns, the inputs are the
    targets: each pair is a sample of the identity map. *)
Theorem inputs_are_targets (n_samples seed : Z) (g g' : rng) (s : split) :
  data_simulation n_samples seed g = Ok s g' →
  data (x_train s) = data (y_train s) ∧ data (x_test s) = data (y_test s).
Proof.
  intros Hrun. destruct (data_simulation_Ok_inv _ _ _ _ _ Hrun) as [Hn Hs].
  rewrite data_simulation_seeded in Hrun by (done || lia). cbv zeta in Hrun.
  set (n := Z.to_nat n_samples) in *.
  set (vs := (draws n (seed_state seed)).1) in *.
  assert (length vs = n) as Hlen by apply length_draws.
  rewrite (scaled_data vs n n Hlen) in Hrun by done.
  rewrite Nat.sub_diag, take_ge in Hrun by lia. simpl in Hrun.
  rewrite app_nil_r in Hrun.
  unfold train_test_split in Hrun. cbn [shape hd] in Hrun.
  rewrite Nat.eqb_refl, Hs in Hrun. cbn [negb] in Hrun.
  destruct (n - (n + 4) / 5 =? 0)%nat; [done|].
  injection Hrun as <- _. by unfold take_rows.
Qed.

(** X10.  With a generator whose [permutation] permutes: of [n] samples,
    [ceil(n / 5)] go to the evaluation part and the others to the training
    part, and the targets of the two parts together are a rearrangement of
    the [n] numbers drawn: no sample is lost and none is used twice. *)
Theorem split_partitions (n_samples seed : Z) (g g' : rng) (s : split) :
  permutes →
  data_simulation n_samples seed g = Ok s g' →
  let n := Z.to_nat n_samples in
  let n_test := ((n + 4) / 5)%nat in
  length (data (y_test s)) = n_test ∧
  length (data (y_train s)) = (n - n_test)%nat ∧
  data (y_test s) ++ data (y_train s) ≡ₚ (draws n (seed_state seed)).1.
Proof.
  intros Hperm Hrun n n_test.
  destruct (data_simulation_Ok_inv _ _ _ _ _ Hrun) as [Hn Hs].
  rewrite data_simulation_seeded in Hrun by (done || lia). cbv zeta in Hrun.
  fold n in Hrun.
  set (vs := (draws n (seed_state seed)).1) in *.
  assert (length vs = n) as Hlen by apply length_draws.
  unfold train_test_split in Hrun. rewrite shape_scaled in Hrun.
  cbn [shape hd] in Hrun.
  rewrite Nat.eqb_refl, Hs in Hrun. cbn [negb] in Hrun. fold n_test in Hrun.
  destruct (n - n_test =? 0)%nat; [done|].
  injection Hrun as <- _. cbn [y_test y_train].
  set (p := permutation (seed_state seed) n).
  assert (p ≡ₚ seq 0 n) as Hp by apply Hperm.
  assert (length p = n) as Hlp by (by rewrite Hp, length_seq).
  assert (Forall (λ i, i < length vs) p) as Hbound.
  { rewrite Hp, Hlen. apply Forall_forall. intros i Hi%elem_of_seq. lia. }
  assert (n_test ≤ n) as Hle.
  { subst n_test. assert (2 ≤ n) by lia.
    apply Nat.lt_le_incl, Nat.Div0.div_lt_upper_bound. lia. }
  rewrite !take_rows_data;
    [ | done | by apply Forall_take, Forall_drop | done | by apply Forall_take ].
  rewrite !length_map, !length_take, length_drop, Hlp.
  split; [lia|]. split; [lia|].
  rewrite <- map_app.
  replace (take (n - n_test) (drop n_test p)) with (drop n_test p)
    by (symmetry; apply take_ge; rewrite length_drop; lia).
  rewrite take_drop, Hp, <- Hlen. by rewrite map_nth_seq.
Qed.

End Samples.

Lemma inputs_are_targets_witness :
  ∃ (s : split) (g' : Z),
    data_simulation 2000 23 0%Z = Ok s g' ∧
    data (x_train s) = data (y_train s) ∧ data (x_test s) = data (y_test s).
Proof.
  destruct (proj2 (data_simulation_outcome 2000 23 0%Z eq_refl) ltac:(lia))
    as [s Hrun].
  exists s, (draws (Z.to_nat 2000) (seed_state 23)).2.
  split; [exact Hrun|].
  exact (inputs_are_targets 2000 23 0%Z _ s Hrun).
Defined.

Lemma split_partitions_witness :
  ∃ (s : split) (g' : Z),
    data_simulation 2000 23 0%Z = Ok s g' ∧
    length (data (y_test s)) = 400%nat ∧
    length (data (y_train s)) = 1600%nat ∧
    data (y_test s) ++ data (y_train s) ≡ₚ (draws 2000 23%Z).1.
Proof.
  destruct (proj2 (data_simulation_outcome 2000 23 0%Z eq_refl) ltac:(lia))
    as [s Hrun].
  exists s, (draws (Z.to_nat 2000) (seed_state 23)).2.
  split; [exact Hrun|].
  exact (split_partitions 2000 23 0%Z _ s toy_permutes Hrun).
Defined.

(** X11.  Where a failing run leaves numpy's global generator, for a seed
    that numpy accepts: a negative count fails at [np.ones], before the
    generator is touched; the counts [0] and [1] fail at [train_test_split],
    after the generator has been reseeded and read. *)
Theorem failure_leaves_generator `{Generator rng} (n_samples seed : Z) (g : rng) :
  valid_seed seed = true →
  ((n_samples < 0)%Z → data_simulation n_samples seed g = Raise ValueError g) ∧
  ((0 ≤ n_samples ≤ 1)%Z →
   data_simulation n_samples seed g
   = Raise ValueError (draws (Z.to_nat n_samples) (seed_state seed)).2).
Proof.
  intros Hs. split.
  - apply data_simulation_negative.
  - intros [Hpos Hsmall]. rewrite data_simulation_seeded by done. cbv zeta.
    match goal with
    | |- train_test_split ?x ?y ?seed ?g' = _ =>
        destruct (train_test_split_outcome x y seed g' (Z.to_nat n_samples))
          as [Hfail _]; [by rewrite shape_scaled | done | done |]
    end.
    apply Hfail. lia.
Qed.

Lemma failure_leaves_generator_witness :
  data_simulation (-3) 23 5%Z = Raise ValueError 5%Z ∧
  data_simulation 1 23 5%Z = Raise ValueError (draws 1 23%Z).2.
Proof.
  split.
  - apply (proj1 (failure_leaves_generator (-3) 23 5%Z eq_refl)). lia.
  - exact (proj2 (failure_leaves_generator 1 23 5%Z eq_refl) ltac:(lia)).
Defined.
